(** * nifcloud_nas_exporter: the NAS collector

    A shallow embedding of [collector/nas.go] and of the parts of the Go
    standard library and of the Prometheus client it calls, followed by the
    properties of the collector.

    - [time], [strconv], [url], [prometheus]: the library functions the
      collector calls, modelled on the library sources the repository builds
      against (Go 1.13, client_golang).
    - the collector itself: [metrics], [NASCollector], [Describe], [scrape],
      [collect], [Collect].
    - goroutines writing to one channel: every goroutine contributes the
      sequence of its sends, and a scheduler interleaves the sequences. *)

From Stdlib Require Import ZArith List String Ascii Bool Lia Permutation.
From Stdlib Require Import PrimFloat Uint63.
Import ListNotations.
Local Open Scope string_scope.
Local Open Scope list_scope.
Local Open Scope Z_scope.

Set Implicit Arguments.

(** ** Results of fallible calls

    A Go function returning [(T, error)] returns [Ok v] or [Err e]. *)

Inductive result (E A : Type) : Type :=
| Ok (a : A)
| Err (e : E).

Arguments Ok {E A} a.
Arguments Err {E A} e.

Definition is_ok {E A} (r : result E A) : bool :=
  match r with Ok _ => true | Err _ => false end.

(** ** Strings as Go sees them: byte sequences with slicing *)

Module gostring.

(** [s[n:]] *)
Fixpoint drop (n : nat) (s : string) : string :=
  match n, s with
  | O, _ => s
  | S n', String _ s' => drop n' s'
  | S _, EmptyString => EmptyString
  end.

(** [s[:n]] *)
Fixpoint take (n : nat) (s : string) : string :=
  match n, s with
  | O, _ => EmptyString
  | S n', String c s' => String c (take n' s')
  | S _, EmptyString => EmptyString
  end.

(** [s[i:j]] *)
Definition slice (i j : nat) (s : string) : string := take (j - i) (drop i s).

Definition byte (c : ascii) : Z := Z.of_N (N_of_ascii c).

Definition is_digit (c : ascii) : bool := (48 <=? byte c) && (byte c <=? 57).

Definition digit (c : ascii) : Z := byte c - 48.

(** [strings.Repeat("0", n)] *)
Fixpoint zeros (n : nat) : string :=
  match n with O => EmptyString | S n' => String "0" (zeros n') end.

Definition of_byte (b : Z) : ascii := ascii_of_N (Z.to_N b).

Fixpoint of_list (l : list ascii) : string :=
  match l with
  | [] => EmptyString
  | c :: l' => String c (of_list l')
  end.

(** The decimal digits of [u >= 0], least significant first, as the loop
    [for u >= 10 { q := u / 10; buf[i] = '0' + u - q*10; u = q }] followed
    by [buf[i] = '0' + u] writes them; [fuel] is the size of the buffer. *)
Fixpoint digitsRev (fuel : nat) (u : Z) : list ascii :=
  match fuel with
  | O => []
  | S fuel' =>
    if 10 <=? u then of_byte (48 + (u - (u / 10) * 10)) :: digitsRev fuel' (u / 10)
    else [of_byte (48 + u)]
  end.

Definition decimal (u : Z) : string := of_list (rev (digitsRev 20 u)).

(** [strings.Join(parts, sep)] *)
Fixpoint join (sep : string) (parts : list string) : string :=
  match parts with
  | [] => EmptyString
  | [p] => p
  | p :: rest => (p ++ sep ++ join sep rest)%string
  end.

End gostring.

(** ** Package [time]

    A [Time] is an instant together with the offset of the location it is
    displayed in.  The instant is counted in nanoseconds from the zero Time,
    January 1, year 1, 00:00:00 UTC, which is what [time.Time{}] and
    [new(time.Time)] denote; instants before it are negative.  Only fixed
    offsets are modelled as locations. *)

Module time.
Import gostring.

(** [type Duration int64], nanoseconds. *)
Definition Duration : Type := Z.

Definition Nanosecond : Duration := 1.
Definition Second : Duration := 1000000000.

Record Time : Type := mkTime {
  instant : Z;     (* nanoseconds since 0001-01-01T00:00:00Z *)
  zoneOffset : Z   (* seconds east of UTC of the Time's location *)
}.

(** The zero value of [Time]. *)
Definition zero : Time := mkTime 0 0.

(** [t.Before(u)] *)
Definition Before (t u : Time) : bool := instant t <? instant u.

(** [t.Add(d)] *)
Definition Add (t : Time) (d : Duration) : Time :=
  mkTime (instant t + d) (zoneOffset t).

(** [t.In(time.UTC)] *)
Definition In_UTC (t : Time) : Time := mkTime (instant t) 0.

(** [float64(x)] of an integer of at most 63 bits in absolute value. *)
Definition float64_of_int (x : Z) : float :=
  if x <? 0 then PrimFloat.opp (PrimFloat.of_uint63 (Uint63.of_Z (- x)))
  else PrimFloat.of_uint63 (Uint63.of_Z x).

(** [d.Seconds()]:
    [sec := d / Second; nsec := d % Second;
     return float64(sec) + float64(nsec)/1e9] *)
Definition Seconds (d : Duration) : float :=
  PrimFloat.add
    (float64_of_int (Z.quot d Second))
    (PrimFloat.div (float64_of_int (Z.rem d Second)) (float64_of_int Second)).

(** *** The calendar *)

Definition daysPer400Years : Z := 146097.
Definition daysPer100Years : Z := 36524.
Definition daysPer4Years : Z := 1461.
Definition secondsPerDay : Z := 86400.

Definition isLeap (year : Z) : bool :=
  (year mod 4 =? 0) && (negb (year mod 100 =? 0) || (year mod 400 =? 0)).

(** [daysBefore[m]]: days in a non-leap year before month [m+1]. *)
Definition daysBefore (m : Z) : Z :=
  nth (Z.to_nat m) [0; 31; 59; 90; 120; 151; 181; 212; 243; 273; 304; 334; 365] 365.

Definition daysIn (month year : Z) : Z :=
  if (month =? 2) && isLeap year then 29
  else daysBefore month - daysBefore (month - 1).

(** [daysSinceEpoch], with year 1 as the epoch: the days from January 1 of
    year 1 to January 1 of [year]. *)
Definition daysSinceEpoch (year : Z) : Z :=
  let y := year - 1 in
  let n := y / 400 in
  let y := y - 400 * n in
  let d := daysPer400Years * n in
  let n := y / 100 in
  let y := y - 100 * n in
  let d := d + daysPer100Years * n in
  let n := y / 4 in
  let y := y - 4 * n in
  let d := d + daysPer4Years * n in
  d + 365 * y.

(** [time.Date(year, month, day, hour, min, sec, nsec, loc)] for fields
    that are in range (no normalisation), [loc] a fixed offset. *)
Definition Date (year month day hour min sec nsec offset : Z) : Time :=
  let d := daysSinceEpoch year + daysBefore (month - 1) in
  let d := if isLeap year && (3 <=? month) then d + 1 else d in
  let d := d + (day - 1) in
  let abs := d * secondsPerDay + hour * 3600 + min * 60 + sec in
  mkTime ((abs - offset) * Second + nsec) offset.

(** The year and the day within the year ([absDate]) of a day count. *)
Definition absDate (days : Z) : Z * Z :=
  let n := days / daysPer400Years in
  let y := 400 * n in
  let d := days - daysPer400Years * n in
  let n := d / daysPer100Years in
  let n := n - Z.shiftr n 2 in
  let y := y + 100 * n in
  let d := d - daysPer100Years * n in
  let n := d / daysPer4Years in
  let y := y + 4 * n in
  let d := d - daysPer4Years * n in
  let n := d / 365 in
  let n := n - Z.shiftr n 2 in
  let y := y + n in
  let d := d - 365 * n in
  (y + 1, d).

(** Month and day of the month from the day of the year. *)
Definition monthDay (year yday : Z) : Z * Z :=
  let leapday := isLeap year && (yday =? 31 + 29 - 1) in
  let day := if isLeap year && (31 + 29 - 1 <? yday) then yday - 1 else yday in
  if leapday then (2, 29)
  else
    let month := day / 31 in
    let e := daysBefore (month + 1) in
    if e <=? day then (month + 2, day - e + 1)
    else (month + 1, day - daysBefore month + 1).

Record Civil : Type := mkCivil {
  year : Z; month : Z; day : Z; hour : Z; minute : Z; second : Z
}.

(** The calendar fields a [Time] shows in its own location. *)
Definition civil (t : Time) : Civil :=
  let abs := instant t / Second + zoneOffset t in
  let days := abs / secondsPerDay in
  let secs := abs mod secondsPerDay in
  let '(y, yday) := absDate days in
  let '(m, d) := monthDay y yday in
  mkCivil y m d (secs / 3600) ((secs mod 3600) / 60) (secs mod 60).

(** *** Layouts *)

Definition RFC3339 : string := "2006-01-02T15:04:05Z07:00".

(** The layout elements that occur in the layouts the collector uses;
    every other character of a layout is taken literally. *)
Inductive chunk : Type :=
| stdLongYear          (* "2006" *)
| stdZeroMonth         (* "01" *)
| stdZeroDay           (* "02" *)
| stdHour              (* "15" *)
| stdZeroMinute        (* "04" *)
| stdZeroSecond        (* "05" *)
| stdISO8601ColonTZ    (* "Z07:00" *)
| literal (c : ascii).

(** [nextStdChunk], iterated over the whole layout.  [skip] counts the
    characters of the element just recognised that are still to be passed. *)
Fixpoint chunks (skip : nat) (layout : string) : list chunk :=
  match layout with
  | EmptyString => []
  | String c rest =>
    match skip with
    | S k => chunks k rest
    | O =>
      if prefix "2006" layout then stdLongYear :: chunks 3 rest
      else if prefix "01" layout then stdZeroMonth :: chunks 1 rest
      else if prefix "02" layout then stdZeroDay :: chunks 1 rest
      else if prefix "15" layout then stdHour :: chunks 1 rest
      else if prefix "04" layout then stdZeroMinute :: chunks 1 rest
      else if prefix "05" layout then stdZeroSecond :: chunks 1 rest
      else if prefix "Z07:00" layout then stdISO8601ColonTZ :: chunks 5 rest
      else literal c :: chunks 0 rest
    end
  end.

(** *** Formatting *)

(** [appendInt(b, x, width)]: the decimal form of [x], the digits padded
    with leading zeros to [width]. *)
Definition appendInt (x : Z) (width : nat) : string :=
  let digits := decimal (Z.abs x) in
  let padded := (zeros (width - String.length digits) ++ digits)%string in
  if x <? 0 then String "-" padded else padded.

(** The zone element: Z for UTC, otherwise the offset as +hh:mm or -hh:mm. *)
Definition formatZone (offset : Z) : string :=
  if offset =? 0 then "Z"
  else
    let zone := Z.quot offset 60 in
    let sign := if zone <? 0 then "-" else "+" in
    let zone := Z.abs zone in
    (sign ++ appendInt (Z.quot zone 60) 2 ++ ":" ++ appendInt (Z.rem zone 60) 2)%string.

Definition formatChunk (t : Time) (k : chunk) : string :=
  let c := civil t in
  match k with
  | stdLongYear => appendInt (year c) 4
  | stdZeroMonth => appendInt (month c) 2
  | stdZeroDay => appendInt (day c) 2
  | stdHour => appendInt (hour c) 2
  | stdZeroMinute => appendInt (minute c) 2
  | stdZeroSecond => appendInt (second c) 2
  | stdISO8601ColonTZ => formatZone (zoneOffset t)
  | literal ch => String ch EmptyString
  end.

(** [t.Format(layout)], for layouts made of the elements above. *)
Definition Format (t : Time) (layout : string) : string :=
  String.concat "" (map (formatChunk t) (chunks 0 layout)).

(** *** Parsing *)

(** [isDigit(s, i)]: [s[i]] exists and is a decimal digit. *)
Definition isDigit (s : string) (i : nat) : bool :=
  match String.get i s with
  | Some c => is_digit c
  | None => false
  end.

Definition maxInt64 : Z := 9223372036854775807.

(** [leadingInt]: the leading digits of [s] as a number and the rest of
    [s]; an error when the number overflows an int64.  [x] accumulates. *)
Fixpoint leadingInt (x : Z) (s : string) : option (Z * string) :=
  match s with
  | EmptyString => Some (x, s)
  | String c rest =>
    if is_digit c then
      if maxInt64 / 10 <? x then None
      else
        let x' := x * 10 + digit c in
        if maxInt64 <? x' then None else leadingInt x' rest
    else Some (x, s)
  end.

(** [atoi]: an optional sign and digits, nothing else. *)
Definition atoi (s : string) : option Z :=
  let '(neg, s) :=
    match s with
    | String "-" rest => (true, rest)
    | String "+" rest => (false, rest)
    | _ => (false, s)
    end in
  match leadingInt 0 s with
  | Some (q, EmptyString) => Some (if neg then - q else q)
  | _ => None
  end.

(** [getnum]: a one or two digit number; two digits when [fixed]. *)
Definition getnum (s : string) (fixed : bool) : option (Z * string) :=
  match s with
  | String c0 rest =>
    if is_digit c0 then
      match rest with
      | String c1 rest' =>
        if is_digit c1 then Some (digit c0 * 10 + digit c1, rest')
        else if fixed then None else Some (digit c0, rest)
      | EmptyString => if fixed then None else Some (digit c0, rest)
      end
    else None
  | EmptyString => None
  end.

(** The number of leading digits of [s]. *)
Fixpoint countDigits (s : string) : nat :=
  match s with
  | String c rest => if is_digit c then S (countDigits rest) else O
  | EmptyString => O
  end.

(** [parseNanoseconds(value, nbytes)], [value] starting with a period
    followed by [nbytes - 1] digits: the digits scaled to nanoseconds. *)
Definition parseNanoseconds (value : string) (nbytes : nat) : option Z :=
  match value with
  | String "." _ =>
    match atoi (slice 1 nbytes value) with
    | Some ns =>
      if (ns <? 0) || (1000000000 <=? ns) then None
      else Some (ns * 10 ^ Z.of_nat (10 - nbytes))
    | None => None
    end
  | _ => None
  end.

(** The fields [parse] collects while it walks the layout. *)
Record fields : Type := mkFields {
  f_year : Z; f_month : Z; f_day : Z;
  f_hour : Z; f_min : Z; f_sec : Z; f_nsec : Z;
  f_utc : bool;        (* [z = UTC]: the value ended in Z *)
  f_zoneOffset : Z     (* -1 until a numeric offset is read *)
}.

Definition fields0 : fields := mkFields 0 1 1 0 0 0 0 false (-1).

Definition set_year (f : fields) (y : Z) : fields :=
  mkFields y (f_month f) (f_day f) (f_hour f) (f_min f) (f_sec f)
           (f_nsec f) (f_utc f) (f_zoneOffset f).
Definition set_month (f : fields) (m : Z) : fields :=
  mkFields (f_year f) m (f_day f) (f_hour f) (f_min f) (f_sec f)
           (f_nsec f) (f_utc f) (f_zoneOffset f).
Definition set_day (f : fields) (d : Z) : fields :=
  mkFields (f_year f) (f_month f) d (f_hour f) (f_min f) (f_sec f)
           (f_nsec f) (f_utc f) (f_zoneOffset f).
Definition set_hour (f : fields) (h : Z) : fields :=
  mkFields (f_year f) (f_month f) (f_day f) h (f_min f) (f_sec f)
           (f_nsec f) (f_utc f) (f_zoneOffset f).
Definition set_min (f : fields) (m : Z) : fields :=
  mkFields (f_year f) (f_month f) (f_day f) (f_hour f) m (f_sec f)
           (f_nsec f) (f_utc f) (f_zoneOffset f).
Definition set_sec (f : fields) (s : Z) : fields :=
  mkFields (f_year f) (f_month f) (f_day f) (f_hour f) (f_min f) s
           (f_nsec f) (f_utc f) (f_zoneOffset f).
Definition set_nsec (f : fields) (ns : Z) : fields :=
  mkFields (f_year f) (f_month f) (f_day f) (f_hour f) (f_min f) (f_sec f)
           ns (f_utc f) (f_zoneOffset f).
Definition set_utc (f : fields) : fields :=
  mkFields (f_year f) (f_month f) (f_day f) (f_hour f) (f_min f) (f_sec f)
           (f_nsec f) true (f_zoneOffset f).
Definition set_zoneOffset (f : fields) (off : Z) : fields :=
  mkFields (f_year f) (f_month f) (f_day f) (f_hour f) (f_min f) (f_sec f)
           (f_nsec f) (f_utc f) off.

(** The numeric zone [+hh:mm] or [-hh:mm] at the head of [value]. *)
Definition parseColonTZ (value : string) : option (Z * string) :=
  if (String.length value <? 6)%nat then None
  else
    match String.get 3 value with
    | Some ":"%char =>
      match atoi (slice 1 3 value), atoi (slice 4 6 value) with
      | Some hr, Some mm =>
        let off := (hr * 60 + mm) * 60 in
        match value with
        | String "+" _ => Some (off, drop 6 value)
        | String "-" _ => Some (- off, drop 6 value)
        | _ => None
        end
      | _, _ => None
      end
    | _ => None
    end.

(** One round of the loop of [parse]: the value is matched against one
    layout element, which either fails or leaves the rest of the value. *)
Definition parseChunk (k : chunk) (f : fields) (value : string)
  : option (fields * string) :=
  match k with
  | literal c =>
    match value with
    | String c' rest => if Ascii.eqb c c' then Some (f, rest) else None
    | EmptyString => None
    end
  | stdLongYear =>
    if (4 <=? String.length value)%nat && isDigit value 0 then
      match atoi (take 4 value) with
      | Some y => Some (set_year f y, drop 4 value)
      | None => None
      end
    else None
  | stdZeroMonth =>
    match getnum value true with
    | Some (m, rest) =>
      if (m <=? 0) || (12 <? m) then None else Some (set_month f m, rest)
    | None => None
    end
  | stdZeroDay =>
    match getnum value true with
    | Some (d, rest) => Some (set_day f d, rest)
    | None => None
    end
  | stdHour =>
    match getnum value false with
    | Some (h, rest) => if 24 <=? h then None else Some (set_hour f h, rest)
    | None => None
    end
  | stdZeroMinute =>
    match getnum value true with
    | Some (m, rest) => if 60 <=? m then None else Some (set_min f m, rest)
    | None => None
    end
  | stdZeroSecond =>
    match getnum value true with
    | Some (sec, rest) =>
      if 60 <=? sec then None
      else
        (* a fractional second in the value that the layout does not have *)
        match rest with
        | String "." frac =>
          if isDigit rest 1 then
            let n := S (countDigits frac) in
            match parseNanoseconds rest n with
            | Some ns => Some (set_nsec (set_sec f sec) ns, drop n rest)
            | None => None
            end
          else Some (set_sec f sec, rest)
        | _ => Some (set_sec f sec, rest)
        end
    | None => None
    end
  | stdISO8601ColonTZ =>
    match value with
    | String "Z" rest => Some (set_utc f, rest)
    | _ =>
      match parseColonTZ value with
      | Some (off, rest) => Some (set_zoneOffset f off, rest)
      | None => None
      end
    end
  end.

Fixpoint parseChunks (ks : list chunk) (f : fields) (value : string)
  : option fields :=
  match ks with
  | [] => match value with EmptyString => Some f | _ => None end
  | k :: ks' =>
    match parseChunk k f value with
    | Some (f', rest) => parseChunks ks' f' rest
    | None => None
    end
  end.

(** [time.Parse(layout, value)] for layouts made of the elements above
    (and without spaces); [None] is a non-nil error.  A value that ends
    in Z is in UTC; one with a numeric zone is in a location of that
    offset. *)
Definition Parse (layout value : string) : option Time :=
  match parseChunks (chunks 0 layout) fields0 value with
  | None => None
  | Some f =>
    let date := Date (f_year f) (f_month f) (f_day f)
                     (f_hour f) (f_min f) (f_sec f) (f_nsec f) in
    if (f_day f <? 1) || (daysIn (f_month f) (f_year f) <? f_day f) then None
    else if f_utc f then Some (date 0)
    else if negb (f_zoneOffset f =? -1) then Some (date (f_zoneOffset f))
    else Some (date 0)
  end.

End time.

(** ** Package [strconv]

    [strconv.ParseFloat(s, 64)] is a parameter of the collector below.  The
    function here is the part of it that the examples need: plain decimal
    numerals, an optional sign, digits and an optional fraction, which
    [readFloat] reads as a mantissa and a power of ten and [atof64exact]
    converts without rounding twice.  Wherever it answers [Some f],
    [ParseFloat] returns [f] and no error; it answers [None] on every string
    that holds no digit, where [ParseFloat] returns an error unless the string
    spells an infinity or a NaN. *)

Module strconv.
Import gostring.

(** [float64pow10]: the powers of ten that a float64 holds exactly. *)
Definition float64pow10 : list float :=
  [1e0; 1e1; 1e2; 1e3; 1e4; 1e5; 1e6; 1e7; 1e8; 1e9; 1e10; 1e11; 1e12; 1e13;
   1e14; 1e15; 1e16; 1e17; 1e18; 1e19; 1e20; 1e21; 1e22]%float.

(** [atof64exact(mantissa, exp, neg)] for [exp <= 0]. *)
Definition atof64exact (mantissa : Z) (frac : nat) (neg : bool) : option float :=
  if 2 ^ 52 <=? mantissa then None
  else
    let f := time.float64_of_int mantissa in
    let f := if neg then PrimFloat.opp f else f in
    match frac with
    | O => Some f
    | _ =>
      match nth_error float64pow10 frac with
      | Some p => Some (PrimFloat.div f p)
      | None => None
      end
    end.

(** The leading digits of [s]: their value on top of [m], how many they
    are on top of [n], and the rest of [s]. *)
Fixpoint readDigits (s : string) (m : Z) (n : nat) : Z * nat * string :=
  match s with
  | String c rest =>
    if is_digit c then readDigits rest (m * 10 + digit c) (S n)
    else (m, n, s)
  | EmptyString => (m, n, s)
  end.

Definition ParseFloat_decimal (s : string) : option float :=
  let '(neg, s1) :=
    match s with
    | String "-" rest => (true, rest)
    | String "+" rest => (false, rest)
    | _ => (false, s)
    end in
  let '(m1, n1, r1) := readDigits s1 0 0 in
  let '(m, n2, r2) :=
    match r1 with
    | String "." rest => readDigits rest m1 0
    | _ => (m1, O, r1)
    end in
  match r2 with
  | EmptyString =>
    if (n1 + n2 =? 0)%nat then None
    else if (19 <? n1 + n2)%nat then None
    else atof64exact m n2 neg
  | _ => None
  end.

End strconv.

(** ** Package [net/url]

    [url.Values] is a [map[string][]string]; the collector builds one with a
    literal and [Set], so an association list with at most one binding per
    key carries it. *)

Module url.

Definition Values : Type := list (string * list string).

Definition lookup (v : Values) (key : string) : option (list string) :=
  match find (fun kv => String.eqb (fst kv) key) v with
  | Some kv => Some (snd kv)
  | None => None
  end.

(** [v.Get(key)]: the first value of [key], or the empty string. *)
Definition Get (v : Values) (key : string) : string :=
  match lookup v key with
  | Some (x :: _) => x
  | _ => ""
  end.

(** [v.Set(key, value)]: [v[key] = []string{value}] ([Set] is reserved). *)
Definition Set_ (v : Values) (key value : string) : Values :=
  (key, [value]) :: filter (fun kv => negb (String.eqb (fst kv) key)) v.

End url.

(** ** The NIFCLOUD SDK: the types the collector handles *)

Module nifcloud.

(** [nifcloud.StringValue(p)]: the string [p] points to, empty for nil. *)
Definition StringValue (p : option string) : string :=
  match p with
  | Some s => s
  | None => ""
  end.

(** [nifcloud.NewConfig(accessKeyID, secretAccessKey, region)] *)
Record Config : Type := NewConfig {
  accessKeyID : string;
  secretAccessKey : string;
  configRegion : string
}.

(** [nifcloud.String(s)]: a pointer to [s]. *)
Definition String (s : string) : option string := Some s.

End nifcloud.

Module nas.

(** [nas.Client]: a configuration; what its requests do is the
    environment's ([Service] below). *)
Record Client : Type := New { config : nifcloud.Config }.

Record RequestDimensionsStruct : Type := mkDimension {
  Name : option string;
  Value : option string
}.

Record GetMetricStatisticsInput : Type := mkInput {
  Dimensions : list RequestDimensionsStruct;
  MetricName : option string
}.

(** The fields of a data point the collector reads. *)
Record Datapoint : Type := mkDatapoint {
  Timestamp : option string;
  Sum : option string
}.

End nas.

(** ** Package [prometheus] *)

Module prometheus.
Import gostring.

Record Desc : Type := mkDesc {
  fqName : string;
  help : string;
  variableLabels : list string;
  constLabels : list (string * string)
}.

Definition BuildFQName (namespace subsystem name : string) : string :=
  if String.eqb name "" then ""
  else if negb (String.eqb namespace "") && negb (String.eqb subsystem "")
  then join "_" [namespace; subsystem; name]
  else if negb (String.eqb namespace "") then join "_" [namespace; name]
  else if negb (String.eqb subsystem "") then join "_" [subsystem; name]
  else name.

Definition NewDesc (fqName help : string) (variableLabels : list string)
           (constLabels : list (string * string)) : Desc :=
  mkDesc fqName help variableLabels constLabels.

Inductive ValueType : Type := CounterValue | GaugeValue | UntypedValue.

(** A constant metric: what is sent on the channel of [Collect]. *)
Record Metric : Type := mkMetric {
  desc : Desc;
  valType : ValueType;
  value : float;
  labelValues : list string
}.

(** [NewConstMetric] refuses label values whose number differs from the
    number of variable labels of the descriptor. *)
Definition validateLabelValues (d : Desc) (vals : list string) : bool :=
  (List.length vals =? List.length (variableLabels d))%nat.

(** [MustNewConstMetric(desc, valueType, value, labelValues...)], which
    panics where [validateLabelValues] fails; the collector never gets
    there ([label_values_fit] below). *)
Definition MustNewConstMetric (d : Desc) (vt : ValueType) (v : float)
           (vals : list string) : Metric :=
  mkMetric d vt v vals.

Definition Desc_eq_dec (a b : Desc) : {a = b} + {a <> b}.
Proof.
  decide equality;
    try apply (list_eq_dec string_dec);
    try apply string_dec.
  apply list_eq_dec. decide equality; apply string_dec.
Defined.

Definition Desc_eqb (a b : Desc) : bool :=
  if Desc_eq_dec a b then true else false.

End prometheus.

(** ** Goroutines sending on one channel

    Each goroutine of [Collect] sends a fixed sequence of values on the
    channel it shares with the others.  What the receiver reads is an
    interleaving of these sequences: at every step one goroutine that still
    has something to send gets its next value through.  [sync.WaitGroup]
    makes [Collect] return only when every sequence is exhausted. *)

Module goroutines.

Section Queues.
Variable A : Type.

(** [takes qs x qs']: some queue of [qs] has head [x], and [qs'] is [qs]
    with that head removed. *)
Inductive takes : list (list A) -> A -> list (list A) -> Prop :=
| takes_here : forall x q qs, takes ((x :: q) :: qs) x (q :: qs)
| takes_later : forall x q qs qs',
    takes qs x qs' -> takes (q :: qs) x (q :: qs').

(** [interleaving qs out]: [out] is a complete interleaving of [qs]. *)
Inductive interleaving : list (list A) -> list A -> Prop :=
| interleaving_done : forall qs, List.concat qs = [] -> interleaving qs []
| interleaving_step : forall qs x qs' out,
    takes qs x qs' -> interleaving qs' out -> interleaving qs (x :: out).

Definition nonempty (q : list A) : bool :=
  match q with [] => false | _ :: _ => true end.

(** The number of goroutines that still have something to send. *)
Definition live (qs : list (list A)) : nat :=
  List.length (filter nonempty qs).

(** The head of the [k]-th queue that is not empty, and the queues
    without it. *)
Fixpoint pick (k : nat) (qs : list (list A)) : option (A * list (list A)) :=
  match qs with
  | [] => None
  | [] :: qs' =>
    match pick k qs' with
    | Some (x, r) => Some (x, [] :: r)
    | None => None
    end
  | (x :: q) :: qs' =>
    match k with
    | O => Some (x, q :: qs')
    | S k' =>
      match pick k' qs' with
      | Some (y, r) => Some (y, (x :: q) :: r)
      | None => None
      end
    end
  end.

(** A schedule is a list of choices; choice [c] with [n] goroutines
    ready lets goroutine [c mod n] of them send; when the schedule runs
    out, the first ready goroutine sends. *)
Fixpoint drain (fuel : nat) (schedule : list nat) (qs : list (list A)) : list A :=
  match fuel with
  | O => []
  | S fuel' =>
    match pick (Nat.modulo (hd O schedule) (live qs)) qs with
    | Some (x, qs') => x :: drain fuel' (tl schedule) qs'
    | None => []
    end
  end.

(** Everything is sent: the fuel is the number of values to send. *)
Definition run (schedule : list nat) (qs : list (list A)) : list A :=
  drain (List.length (List.concat qs)) schedule qs.

End Queues.

End goroutines.

(** ** Package [collector] *)

Definition namespace : string := "nifcloud_nas".
Definition timestampLayout : string := "2006-01-02 15:04:05".

Definition scrapeDurationDesc : prometheus.Desc :=
  prometheus.NewDesc
    (prometheus.BuildFQName namespace "scrape" "collector_duration_seconds")
    "nifcloud_nas_exporter: Duration of a collector scrape."
    ["metric_name"] [].

Definition scrapeSuccessDesc : prometheus.Desc :=
  prometheus.NewDesc
    (prometheus.BuildFQName namespace "scrape" "collector_success")
    "nifcloud_nas_exporter: Whether a collector succeeded."
    ["metric_name"] [].

Definition label : list string := ["instance"; "region"].

Record Metric : Type := mkMetric {
  Name : string;
  Desc : prometheus.Desc
}.

Definition metrics : list Metric :=
  [ mkMetric "FreeStorageSpace"
      (prometheus.NewDesc (prometheus.BuildFQName namespace "" "free_storage_space")
         "The amount of available storage space. Units: Bytes" label []);
    mkMetric "UsedStorageSpace"
      (prometheus.NewDesc (prometheus.BuildFQName namespace "" "used_storage_space")
         "The amount of used storage space. Units: Bytes" label []);
    mkMetric "ReadIOPS"
      (prometheus.NewDesc (prometheus.BuildFQName namespace "" "read_iops")
         "The average number of disk read I/O operations per second. Units: Count/Second"
         label []);
    mkMetric "WriteIOPS"
      (prometheus.NewDesc (prometheus.BuildFQName namespace "" "write_iops")
         "The average number of disk write I/O operations per second. Units: Count/Second"
         label []);
    mkMetric "ReadThroughput"
      (prometheus.NewDesc (prometheus.BuildFQName namespace "" "read_throughput")
         "The average number of bytes read from disk per second. Units: Bytes/Second"
         label []);
    mkMetric "WriteThroughput"
      (prometheus.NewDesc (prometheus.BuildFQName namespace "" "write_throughput")
         "The average number of bytes written to disk per second. Units: Bytes/Second"
         label []);
    mkMetric "ActiveConnections"
      (prometheus.NewDesc (prometheus.BuildFQName namespace "" "active_connections")
         "The active connection counts. Units: Count" label []);
    mkMetric "GlobalReadTraffic"
      (prometheus.NewDesc (prometheus.BuildFQName namespace "" "global_read_traffic")
         "The incoming (Receive) network traffic from global on the NAS instance. Units: Bytes/second"
         label []);
    mkMetric "PrivateReadTraffic"
      (prometheus.NewDesc (prometheus.BuildFQName namespace "" "private_read_traffic")
         "The incoming (Receive) network traffic from private on the NAS instance. Units: Bytes/second"
         label []);
    mkMetric "GlobalWriteTraffic"
      (prometheus.NewDesc (prometheus.BuildFQName namespace "" "global_write_traffic")
         "The outgoing (Transmit) network traffic to global on the NAS instance. Units: Bytes/second"
         label []);
    mkMetric "PrivateWriteTraffic"
      (prometheus.NewDesc (prometheus.BuildFQName namespace "" "private_write_traffic")
         "The outgoing (Transmit) network traffic to private on the NAS instance. Units: Bytes/second"
         label []) ].

Record NASCollector : Type := mkNASCollector {
  client : nas.Client;
  nc_metrics : list Metric;          (* the field [metrics] *)
  nasInstanceIdentifier : string;
  region : string
}.

Definition NewNASCollector (nasInstanceIdentifier accessKeyID secretAccessKey region : string)
  : NASCollector :=
  mkNASCollector
    (nas.New (nifcloud.NewConfig accessKeyID secretAccessKey region))
    metrics
    nasInstanceIdentifier
    region.

(** [Describe]: the descriptors sent on the channel, in order. *)
Definition Describe (n : NASCollector) : list prometheus.Desc :=
  map Desc (nc_metrics n) ++ [scrapeDurationDesc; scrapeSuccessDesc].

(** *** Errors

    The error values [scrape] returns, one constructor per return site. *)
Inductive error : Type :=
| ErrBuild (cause : string)           (* "failed building request: %v" *)
| ErrEncode (cause : string)          (* "failed encoding request: %v" *)
| ErrSend (cause : string)            (* the error of [request.Send] *)
| ErrNoDatapoints                     (* "fetched no datapoints" *)
| ErrTimestamp (timestamp : string)   (* "could not parse timestamp %q: %v" *)
| ErrSum (sum : string).              (* "could not parse sum %q: %v" *)

(** The kinds of error the specification names.  The code has no such type:
    this is the specification's classification of the return sites. *)
Inductive ErrorKind : Type := RequestBuild | Transport | NoData | ParseFailure.

Definition kind (e : error) : ErrorKind :=
  match e with
  | ErrBuild _ | ErrEncode _ => RequestBuild
  | ErrSend _ => Transport
  | ErrNoDatapoints => NoData
  | ErrTimestamp _ | ErrSum _ => ParseFailure
  end.

(** *** The environment of one goroutine

    What one call of [collect] reads from outside the program: the clock,
    and the SDK request it builds and sends. *)

Record Service : Type := mkService {
  (* [request.Operation.Name] and [request.Metadata.APIVersion] *)
  operationName : string;
  apiVersion : string;
  (* [request.Build()]: nil, or an error *)
  requestBuild : nas.GetMetricStatisticsInput -> option string;
  (* [queryutil.Parse(body, request.Params, false)]: the body with the
     parameters added, or an error *)
  queryutilParse : url.Values -> nas.GetMetricStatisticsInput -> result string url.Values;
  (* [request.Send(ctx)] with the body set by [SetBufferBody]: the data
     points of the response, or an error.  The bytes on the wire are
     [body.Encode()]; the model hands over the values they encode. *)
  requestSend : url.Values -> result string (list nas.Datapoint)
}.

Record Env : Type := mkEnv {
  now : time.Time;              (* [time.Now()] in [scrape] *)
  since : time.Duration;        (* [time.Since(begin)] in [collect] *)
  service : Service
}.

(** The environment of the goroutine of each metric, by metric name. *)
Definition World : Type := string -> Env.

(** *** Effects

    What a goroutine does that can be seen from outside, in program order. *)

Inductive Event : Type :=
| Query (body : url.Values)                               (* [request.Send] called *)
| Send (m : prometheus.Metric)                            (* [ch <- m] *)
| Log (name : string) (d : time.Duration) (e : error).    (* [log.Errorf] *)

(** A computation that may fail: the events so far and the outcome. *)
Definition Run (A : Type) : Type := list Event * result error A.

Definition ret {A} (a : A) : Run A := ([], Ok a).

Definition bind {A B} (m : Run A) (k : A -> Run B) : Run B :=
  match m with
  | (tr, Ok a) => let '(tr', r) := k a in (tr ++ tr', r)
  | (tr, Err e) => (tr, Err e)
  end.

Definition fail {A} (e : error) : Run A := ([], Err e).

Definition emit (ev : Event) : Run unit := ([ev], Ok tt).

Definition lift {A} (r : result error A) : Run A := ([], r).

Notation "x <- m ;; k" := (bind m (fun x => k))
  (at level 61, m at next level, right associativity).
Notation "m ;;; k" := (bind m (fun _ => k))
  (at level 61, right associativity).

Definition trace {A} (m : Run A) : list Event := fst m.
Definition outcome {A} (m : Run A) : result error A := snd m.

(** The values a trace sends on the channel. *)
Fixpoint sends (tr : list Event) : list prometheus.Metric :=
  match tr with
  | [] => []
  | Send m :: tr' => m :: sends tr'
  | _ :: tr' => sends tr'
  end.

(** The request bodies a trace hands to [request.Send]. *)
Fixpoint queries (tr : list Event) : list url.Values :=
  match tr with
  | [] => []
  | Query b :: tr' => b :: queries tr'
  | _ :: tr' => queries tr'
  end.

Section Collector.

(** [strconv.ParseFloat]: the float and a nil error, or an error. *)
Variable strconv_ParseFloat : string -> nat -> option float.

(** The loop of [scrape] over the data points: [latest] and [latestVal]
    are the loop's variables, the result is [latestVal] after the last
    point, or the error the loop returns with. *)
Fixpoint scan (latest : time.Time) (latestVal : float) (datapoints : list nas.Datapoint)
  : result error float :=
  match datapoints with
  | [] => Ok latestVal
  | dp :: rest =>
    match time.Parse time.RFC3339 (nifcloud.StringValue (nas.Timestamp dp)) with
    | None => Err (ErrTimestamp (nifcloud.StringValue (nas.Timestamp dp)))
    | Some timestamp =>
      if time.Before timestamp latest then scan latest latestVal rest
      else
        match strconv_ParseFloat (nifcloud.StringValue (nas.Sum dp)) 64 with
        | None => Err (ErrSum (nifcloud.StringValue (nas.Sum dp)))
        | Some v => scan timestamp v rest
        end
    end
  end.

(** [latest := new(time.Time); var latestVal float64; for ... ] *)
Definition latestValue (datapoints : list nas.Datapoint) : result error float :=
  scan time.zero 0%float datapoints.

(** The request of [scrape]: built, encoded, windowed and sent. *)
Definition fetch (n : NASCollector) (env : Env) (metric : Metric)
  : Run (list nas.Datapoint) :=
  let now := time.In_UTC (now env) in
  let input :=
    nas.mkInput
      [nas.mkDimension (nifcloud.String "NASInstanceIdentifier")
                       (nifcloud.String (nasInstanceIdentifier n))]
      (nifcloud.String (Name metric)) in
  match requestBuild (service env) input with
  | Some err => fail (ErrBuild err)
  | None =>
    let body := [("Action", [operationName (service env)]);
                 ("Version", [apiVersion (service env)])] in
    match queryutilParse (service env) body input with
    | Err err => fail (ErrEncode err)
    | Ok body =>
      let body :=
        url.Set_ body "StartTime"
          (time.Format (time.Add now (180 * time.Second * -1)) timestampLayout) in
      let body := url.Set_ body "EndTime" (time.Format now timestampLayout) in
      emit (Query body) ;;;
      match requestSend (service env) body with
      | Err err => fail (ErrSend err)
      | Ok datapoints => ret datapoints
      end
    end
  end.

Definition scrape (n : NASCollector) (env : Env) (metric : Metric) : Run unit :=
  datapoints <- fetch n env metric ;;
  if (List.length datapoints =? 0)%nat then fail ErrNoDatapoints
  else
    latestVal <- lift (latestValue datapoints) ;;
    emit (Send (prometheus.MustNewConstMetric (Desc metric) prometheus.GaugeValue
                  latestVal [nasInstanceIdentifier n; region n])).

(** [collect]: the trace of the goroutine of one metric. *)
Definition collect (n : NASCollector) (env : Env) (metric : Metric) : list Event :=
  let '(tr, err) := scrape n env metric in
  let duration := since env in
  let '(logged, success) :=
    match err with
    | Err e => ([Log (Name metric) duration e], 0%float)
    | Ok _ => ([], 1%float)
    end in
  tr ++ logged ++
  [ Send (prometheus.MustNewConstMetric scrapeDurationDesc prometheus.GaugeValue
            (time.Seconds duration) [Name metric]);
    Send (prometheus.MustNewConstMetric scrapeSuccessDesc prometheus.GaugeValue
            success [Name metric]) ].

(** [Collect]: one goroutine per metric, all sending on [ch]; the result is
    what the channel carries until [wg.Wait()] returns. *)
Definition Collect (n : NASCollector) (w : World) (schedule : list nat)
  : list prometheus.Metric :=
  goroutines.run schedule
    (map (fun m => sends (collect n (w (Name m)) m)) (nc_metrics n)).

(** *** Vocabulary of the properties *)

(** What [time.Parse] and [strconv.ParseFloat] make of a data point. *)
Definition timestampOf (dp : nas.Datapoint) : option time.Time :=
  time.Parse time.RFC3339 (nifcloud.StringValue (nas.Timestamp dp)).

Definition sumOf (dp : nas.Datapoint) : option float :=
  strconv_ParseFloat (nifcloud.StringValue (nas.Sum dp)) 64.

Definition wellFormed (dp : nas.Datapoint) : Prop :=
  (exists t, timestampOf dp = Some t) /\ (exists v, sumOf dp = Some v).

(** [dp] is at [t] or earlier; [dp] is earlier than [t]. *)
Definition notAfter (t : time.Time) (dp : nas.Datapoint) : Prop :=
  forall t', timestampOf dp = Some t' -> time.instant t' <= time.instant t.

Definition earlier (t : time.Time) (dp : nas.Datapoint) : Prop :=
  forall t', timestampOf dp = Some t' -> time.instant t' < time.instant t.

(** The three samples a goroutine can send for its metric. *)
Definition valueSample (n : NASCollector) (metric : Metric) (v : float)
  : prometheus.Metric :=
  prometheus.MustNewConstMetric (Desc metric) prometheus.GaugeValue v
    [nasInstanceIdentifier n; region n].

Definition durationSample (metric : Metric) (d : time.Duration) : prometheus.Metric :=
  prometheus.MustNewConstMetric scrapeDurationDesc prometheus.GaugeValue
    (time.Seconds d) [Name metric].

Definition successSample (metric : Metric) (success : float) : prometheus.Metric :=
  prometheus.MustNewConstMetric scrapeSuccessDesc prometheus.GaugeValue
    success [Name metric].

(** The value [scrape] ends with, or its error. *)
Definition scrapeValue (n : NASCollector) (env : Env) (metric : Metric)
  : result error float :=
  match outcome (fetch n env metric) with
  | Err e => Err e
  | Ok datapoints =>
    if (List.length datapoints =? 0)%nat then Err ErrNoDatapoints
    else latestValue datapoints
  end.

End Collector.

(** Which samples of the channel are about which metric: a value sample by
    its descriptor, a duration or success sample by its [metric_name]. *)

Definition hasDesc (d : prometheus.Desc) (s : prometheus.Metric) : bool :=
  prometheus.Desc_eqb (prometheus.desc s) d.

Definition hasName (name : string) (s : prometheus.Metric) : bool :=
  if list_eq_dec string_dec (prometheus.labelValues s) [name] then true else false.

Definition isMeta (s : prometheus.Metric) : bool :=
  hasDesc scrapeDurationDesc s || hasDesc scrapeSuccessDesc s.

Definition sampleOf (metric : Metric) (s : prometheus.Metric) : bool :=
  hasDesc (Desc metric) s || (isMeta s && hasName (Name metric) s).

(** The metric list of a collector is usable when names and descriptors tell
    the metrics apart and no descriptor is one of the two meta descriptors. *)
Definition distinctMetrics (ms : list Metric) : Prop :=
  NoDup (map Name ms) /\ NoDup (map Desc ms) /\
  Forall (fun m => Desc m <> scrapeDurationDesc /\ Desc m <> scrapeSuccessDesc) ms.

(** The same, as a check that computes. *)

Fixpoint nodupb {A : Type} (eqb : A -> A -> bool) (l : list A) : bool :=
  match l with
  | [] => true
  | x :: l' => negb (existsb (eqb x) l') && nodupb eqb l'
  end.

Definition distinctMetricsb (ms : list Metric) : bool :=
  nodupb String.eqb (map Name ms)
  && nodupb prometheus.Desc_eqb (map Desc ms)
  && forallb (fun m => negb (prometheus.Desc_eqb (Desc m) scrapeDurationDesc)
                       && negb (prometheus.Desc_eqb (Desc m) scrapeSuccessDesc)) ms.

(** A duration sample without its measurement: what is left to compare
    between two passes whose fetches took different times. *)
Definition forgetDuration (s : prometheus.Metric) : prometheus.Metric :=
  if hasDesc scrapeDurationDesc s
  then prometheus.mkMetric (prometheus.desc s) (prometheus.valType s) 0%float
                           (prometheus.labelValues s)
  else s.

(** An instant of UTC written as YYYY-MM-DD HH:MM:SS. *)
Definition utcTimestamp (instant : Z) : string :=
  let c := time.civil (time.mkTime instant 0) in
  (time.appendInt (time.year c) 4 ++ "-" ++ time.appendInt (time.month c) 2 ++ "-"
   ++ time.appendInt (time.day c) 2 ++ " " ++ time.appendInt (time.hour c) 2 ++ ":"
   ++ time.appendInt (time.minute c) 2 ++ ":" ++ time.appendInt (time.second c) 2)%string.

(** A collector with one metric less. *)
Definition without (b : Metric) (n : NASCollector) : NASCollector :=
  mkNASCollector (client n)
    (filter (fun m => negb (String.eqb (Name m) (Name b))) (nc_metrics n))
    (nasInstanceIdentifier n) (region n).

(** ** Concrete inputs

    A collector, a service that answers every query with the same data
    points, and the environments built from it. *)

Module example.

Definition ParseFloat (s : string) (bitSize : nat) : option float :=
  strconv.ParseFloat_decimal s.

Definition datapoint (timestamp sum : string) : nas.Datapoint :=
  nas.mkDatapoint (Some timestamp) (Some sum).

Definition answering (datapoints : list nas.Datapoint) : Service :=
  mkService "GetMetricStatistics" "N2016-02-24"
    (fun _ => None)
    (fun body input =>
       Ok (url.Set_ body "MetricName" (nifcloud.StringValue (nas.MetricName input))))
    (fun _ => Ok datapoints).

Definition failing (cause : string) : Service :=
  mkService "GetMetricStatistics" "N2016-02-24"
    (fun _ => None)
    (fun body input => Ok body)
    (fun _ => Err cause).

(** 2021-03-01 09:01:00 +09:00, and a fetch that took 50ms. *)
Definition clock : time.Time := time.Date 2021 3 1 9 1 0 0 32400.

Definition env (datapoints : list nas.Datapoint) : Env :=
  mkEnv clock 50000000 (answering datapoints).

Definition collector : NASCollector :=
  NewNASCollector "nas-1" "access" "secret" "jp-east-1".

Definition FreeStorageSpace : Metric := nth 0 metrics (mkMetric "" scrapeDurationDesc).
Definition UsedStorageSpace : Metric := nth 1 metrics (mkMetric "" scrapeDurationDesc).

(** Every metric gets the same answer. *)
Definition world (datapoints : list nas.Datapoint) : World :=
  fun _ => env datapoints.

(** Used space is not answered; the others are. *)
Definition worldWithout (name : string) (datapoints : list nas.Datapoint) : World :=
  fun m => if String.eqb m name then env [] else env datapoints.

Definition schedule : list nat := [3; 1; 4; 1; 5; 9; 2; 6; 5; 3; 5; 8; 9; 7; 9]%nat.

(** Two points at one instant, in two zones. *)
Definition tied : list nas.Datapoint :=
  [ datapoint "2021-03-01T00:00:00Z" "1";
    datapoint "2021-03-01T09:00:00+09:00" "2" ].

(** The later point first, then an older one whose sum is not a number. *)
Definition staleGarbage : list nas.Datapoint :=
  [ datapoint "2021-03-01T00:00:05Z" "1";
    datapoint "2021-03-01T00:00:00Z" "abc" ].

(** A point of the year before year 1. *)
Definition ancient : list nas.Datapoint :=
  [ datapoint "0000-12-31T23:59:59Z" "5" ].

(** An older point first, then a later one whose sum is not a number. *)
Definition freshGarbage : list nas.Datapoint :=
  [ datapoint "2021-03-01T00:00:00Z" "1";
    datapoint "2021-03-01T00:00:05Z" "abc" ].

(** The same answers, 10ms each. *)
Definition quickWorld (datapoints : list nas.Datapoint) : World :=
  fun _ => mkEnv clock 10000000 (answering datapoints).

Definition outOfOrder : list nas.Datapoint :=
  [ datapoint "2021-03-01T00:00:00Z" "10";
    datapoint "2021-03-01T00:02:00Z" "30.5";
    datapoint "2021-03-01T00:01:00Z" "20" ].

End example.

(** The log lines of a trace. *)
Fixpoint logs (tr : list Event) : list (string * time.Duration * error) :=
  match tr with
  | [] => []
  | Log name d e :: tr' => (name, d, e) :: logs tr'
  | _ :: tr' => logs tr'
  end.

(** The instant of a data point, when its timestamp parses. *)
Definition instantOf (dp : nas.Datapoint) : option Z :=
  match timestampOf dp with
  | Some t => Some (time.instant t)
  | None => None
  end.


(** Two instants are the same, or both are missing. *)
Definition sameInstant (a b : option Z) : bool :=
  match a, b with
  | Some x, Some y => Z.eqb x y
  | None, None => true
  | _, _ => false
  end.

(** * Properties *)

(** ** Interleavings *)

Section Interleavings.
Import goroutines.
Variable A : Type.
Implicit Types (qs : list (list A)) (out : list A) (p : A -> bool).

Lemma pick_takes k qs x qs' :
  pick k qs = Some (x, qs') -> takes qs x qs'.
Proof.
  revert k x qs'.
  induction qs as [|q qs IH]; intros k x qs' H; simpl in H.
  - discriminate.
  - destruct q as [|y q].
    + destruct (pick k qs) as [[z r]|] eqn:E; inversion H; subst.
      apply takes_later. eapply IH; eassumption.
    + destruct k as [|k].
      * inversion H; subst. apply takes_here.
      * destruct (pick k qs) as [[z r]|] eqn:E; inversion H; subst.
        apply takes_later. eapply IH; eassumption.
Qed.

Lemma pick_below_live k qs :
  (k < live qs)%nat -> exists x qs', pick k qs = Some (x, qs').
Proof.
  revert k.
  induction qs as [|q qs IH]; intros k H.
  - inversion H.
  - destruct q as [|y q]; simpl.
    + destruct (IH k H) as (x & qs' & E). rewrite E. eauto.
    + destruct k as [|k]; [eauto|].
      unfold live in H; simpl in H.
      destruct (IH k) as (x & qs' & E); [unfold live; lia|].
      rewrite E. eauto.
Qed.

Lemma takes_pick qs x qs' :
  takes qs x qs' -> exists k, (k < live qs)%nat /\ pick k qs = Some (x, qs').
Proof.
  induction 1 as [x q qs|x q qs qs' _ (k & Hk & E)].
  - exists O. split; [unfold live; simpl; lia|reflexivity].
  - destruct q as [|y q].
    + exists k. split; [exact Hk|]. simpl. now rewrite E.
    + exists (S k). split; [unfold live in *; simpl; lia|].
      simpl. now rewrite E.
Qed.

Lemma takes_concat_length qs x qs' :
  takes qs x qs' ->
  List.length (List.concat qs) = S (List.length (List.concat qs')).
Proof.
  induction 1 as [x q qs|x q qs qs' _ IH]; simpl.
  - reflexivity.
  - rewrite !length_app, IH. lia.
Qed.

Lemma live_concat qs :
  (0 < List.length (List.concat qs))%nat -> (0 < live qs)%nat.
Proof.
  induction qs as [|q qs IH]; simpl; intros H.
  - inversion H.
  - destruct q as [|y q]; unfold live in *; simpl in *; [auto|lia].
Qed.

Lemma drain_interleaving fuel schedule qs :
  List.length (List.concat qs) = fuel ->
  interleaving qs (drain fuel schedule qs).
Proof.
  revert schedule qs.
  induction fuel as [|fuel IH]; intros schedule qs Hlen; simpl.
  - apply interleaving_done. now apply length_zero_iff_nil.
  - assert (Hlive : (0 < live qs)%nat) by (apply live_concat; lia).
    destruct (pick_below_live (k := Nat.modulo (hd O schedule) (live qs)) qs)
      as (x & qs' & E).
    { apply Nat.mod_upper_bound. lia. }
    rewrite E.
    pose proof (pick_takes _ _ E) as T.
    apply interleaving_step with (qs' := qs'); [exact T|].
    apply IH. apply takes_concat_length in T. lia.
Qed.

(** Whatever the schedule, what the channel carries is an interleaving
    of what the goroutines send. *)
Lemma run_interleaving schedule qs : interleaving qs (run schedule qs).
Proof. now apply drain_interleaving. Qed.

Lemma interleaving_length qs out :
  interleaving qs out -> List.length out = List.length (List.concat qs).
Proof.
  induction 1 as [qs E|qs x qs' out T _ IH]; simpl.
  - now rewrite E.
  - rewrite (takes_concat_length T). now f_equal.
Qed.

(** And every interleaving is what some schedule produces. *)
Lemma interleaving_run qs out :
  interleaving qs out -> exists schedule, run schedule qs = out.
Proof.
  intros H. unfold run. rewrite <- (interleaving_length H).
  induction H as [qs E|qs x qs' out T _ (schedule & IH)].
  - exists []. reflexivity.
  - destruct (takes_pick T) as (k & Hk & E).
    exists (k :: schedule). simpl.
    rewrite Nat.mod_small by exact Hk. rewrite E. now f_equal.
Qed.

Lemma takes_Permutation qs x qs' :
  takes qs x qs' -> Permutation (List.concat qs) (x :: List.concat qs').
Proof.
  induction 1 as [x q qs|x q qs qs' _ IH]; simpl.
  - reflexivity.
  - rewrite IH. symmetry. apply Permutation_middle.
Qed.

(** Nothing is lost and nothing is invented. *)
Lemma interleaving_Permutation qs out :
  interleaving qs out -> Permutation out (List.concat qs).
Proof.
  induction 1 as [qs E|qs x qs' out T _ IH].
  - now rewrite E.
  - rewrite (takes_Permutation T). now constructor.
Qed.

Lemma takes_filter p qs x qs' :
  takes qs x qs' ->
  if p x then takes (map (filter p) qs) x (map (filter p) qs')
  else map (filter p) qs = map (filter p) qs'.
Proof.
  induction 1 as [x q qs|x q qs qs' _ IH]; simpl.
  - destruct (p x) eqn:E; [apply takes_here|reflexivity].
  - destruct (p x); [now apply takes_later|now f_equal].
Qed.

Lemma concat_filter p qs :
  List.concat (map (filter p) qs) = filter p (List.concat qs).
Proof.
  induction qs as [|q qs IH]; simpl; [reflexivity|].
  now rewrite filter_app, IH.
Qed.

(** The values of an interleaving that satisfy [p] interleave the values
    of each goroutine that satisfy [p]. *)
Lemma interleaving_filter p qs out :
  interleaving qs out -> interleaving (map (filter p) qs) (filter p out).
Proof.
  induction 1 as [qs E|qs x qs' out T _ IH]; simpl.
  - apply interleaving_done. rewrite concat_filter, E. reflexivity.
  - pose proof (takes_filter p T) as F.
    destruct (p x).
    + eapply interleaving_step; eassumption.
    + now rewrite F.
Qed.

Lemma live_zero_concat qs : live qs = O -> List.concat qs = [].
Proof.
  induction qs as [|q qs IH]; simpl; intros H; [reflexivity|].
  destruct q; unfold live in *; simpl in *; [auto|discriminate].
Qed.

Lemma takes_live qs x qs' : takes qs x qs' -> (0 < live qs)%nat.
Proof.
  intros T. apply live_concat. rewrite (takes_concat_length T). lia.
Qed.

Lemma takes_single qs x qs' :
  takes qs x qs' -> (live qs <= 1)%nat ->
  List.concat qs = x :: List.concat qs' /\ (live qs' <= 1)%nat.
Proof.
  induction 1 as [x q qs|x q qs qs' T IH]; intros L.
  - split; [reflexivity|].
    unfold live in *; simpl in *. destruct q; simpl; lia.
  - destruct q as [|y q].
    + unfold live in *; simpl in *. now apply IH.
    + pose proof (takes_live T). unfold live in *; simpl in *. lia.
Qed.

(** With a single goroutine sending, the channel carries its sequence. *)
Lemma interleaving_single qs out :
  interleaving qs out -> (live qs <= 1)%nat -> out = List.concat qs.
Proof.
  induction 1 as [qs E|qs x qs' out T _ IH]; intros L.
  - now rewrite E.
  - destruct (takes_single T L) as [E L'].
    rewrite E. f_equal. now apply IH.
Qed.

(** The values of the channel that satisfy [p], when at most one goroutine
    sends such values: its values, in its order. *)
Lemma run_filter_single p schedule qs :
  (live (map (filter p) qs) <= 1)%nat ->
  filter p (run schedule qs) = filter p (List.concat qs).
Proof.
  intros L. rewrite <- concat_filter.
  apply interleaving_single; [|exact L].
  apply interleaving_filter, run_interleaving.
Qed.

Lemma run_Permutation schedule qs :
  Permutation (run schedule qs) (List.concat qs).
Proof. apply interleaving_Permutation, run_interleaving. Qed.

End Interleavings.

(** ** The loop over the data points *)

Lemma Before_lt t u : time.Before t u = true <-> time.instant t < time.instant u.
Proof. unfold time.Before. apply Z.ltb_lt. Qed.

Lemma Before_ge t u : time.Before t u = false <-> time.instant u <= time.instant t.
Proof. unfold time.Before. apply Z.ltb_ge. Qed.

Section Scan.
Variable pf : string -> nat -> option float.

Lemma scan_cons latest latestVal dp rest :
  scan pf latest latestVal (dp :: rest) =
  match timestampOf dp with
  | None => Err (ErrTimestamp (nifcloud.StringValue (nas.Timestamp dp)))
  | Some timestamp =>
    if time.Before timestamp latest then scan pf latest latestVal rest
    else
      match sumOf pf dp with
      | None => Err (ErrSum (nifcloud.StringValue (nas.Sum dp)))
      | Some v => scan pf timestamp v rest
      end
  end.
Proof. unfold timestampOf, sumOf. cbn [scan]. reflexivity. Qed.

(** Points older than [latest] whose timestamps parse are passed over,
    whatever their values. *)
Lemma scan_earlier latest latestVal rest :
  Forall (fun dp => exists t, timestampOf dp = Some t) rest ->
  Forall (earlier latest) rest ->
  scan pf latest latestVal rest = Ok latestVal.
Proof.
  induction rest as [|dp rest IH]; intros P E.
  - reflexivity.
  - inversion P as [|? ? [t Ht] P']; inversion E as [|? ? Et E']; subst.
    rewrite scan_cons, Ht.
    replace (time.Before t latest) with true
      by (symmetry; apply Before_lt; now apply Et).
    now apply IH.
Qed.

(** The loop ends with the value of the last point that carries the latest
    timestamp, as long as that timestamp is not before where the loop
    starts. *)
Lemma scan_last_latest pre : forall latest latestVal dp post t v,
  Forall (wellFormed pf) pre ->
  Forall (notAfter t) pre ->
  timestampOf dp = Some t -> sumOf pf dp = Some v ->
  time.instant latest <= time.instant t ->
  Forall (fun d => exists t', timestampOf d = Some t') post ->
  Forall (earlier t) post ->
  scan pf latest latestVal (pre ++ dp :: post) = Ok v.
Proof.
  induction pre as [|d pre IH]; intros latest latestVal dp post t v W N Ht Hv L P E.
  - simpl app. rewrite scan_cons, Ht, Hv.
    replace (time.Before t latest) with false
      by (symmetry; now apply Before_ge).
    now apply scan_earlier.
  - inversion W as [|? ? [[t' Ht'] [v' Hv']] W']; inversion N as [|? ? Nd N']; subst.
    simpl app. rewrite scan_cons, Ht', Hv'.
    destruct (time.Before t' latest); eapply IH; eauto.
Qed.

(** A timestamp that does not parse fails the loop, wherever it stands. *)
Lemma scan_bad_timestamp datapoints : forall latest latestVal,
  Exists (fun dp => timestampOf dp = None) datapoints ->
  exists e, scan pf latest latestVal datapoints = Err e /\ kind e = ParseFailure.
Proof.
  induction datapoints as [|dp rest IH]; intros latest latestVal H.
  - inversion H.
  - rewrite scan_cons.
    destruct (timestampOf dp) as [t|] eqn:Ht.
    + assert (R : Exists (fun dp => timestampOf dp = None) rest)
        by (inversion H; [congruence|assumption]).
      destruct (time.Before t latest); [now apply IH|].
      destruct (sumOf pf dp); [now apply IH|].
      eexists; split; reflexivity.
    + eexists; split; reflexivity.
Qed.

(** A value that does not parse fails the loop when its point is not older
    than the points before it nor than where the loop starts. *)
Lemma scan_bad_sum pre : forall latest latestVal dp post t,
  Forall (notAfter t) pre ->
  timestampOf dp = Some t -> sumOf pf dp = None ->
  time.instant latest <= time.instant t ->
  exists e, scan pf latest latestVal (pre ++ dp :: post) = Err e
            /\ kind e = ParseFailure.
Proof.
  induction pre as [|d pre IH]; intros latest latestVal dp post t N Ht Hv L.
  - simpl app. rewrite scan_cons, Ht, Hv.
    replace (time.Before t latest) with false
      by (symmetry; now apply Before_ge).
    eexists; split; reflexivity.
  - inversion N as [|? ? Nd N']; subst.
    simpl app. rewrite scan_cons.
    destruct (timestampOf d) as [t'|] eqn:Ht'; [|eexists; split; reflexivity].
    destruct (time.Before t' latest); [now eapply IH; eauto|].
    destruct (sumOf pf d); [|eexists; split; reflexivity].
    eapply IH; eauto.
Qed.

(** The loop fails with nothing but parse errors. *)
Lemma scan_error datapoints : forall latest latestVal e,
  scan pf latest latestVal datapoints = Err e -> kind e = ParseFailure.
Proof.
  induction datapoints as [|dp rest IH]; intros latest latestVal e H.
  - discriminate.
  - rewrite scan_cons in H.
    destruct (timestampOf dp) as [t|]; [|now inversion H].
    destruct (time.Before t latest); [now eapply IH; eauto|].
    destruct (sumOf pf dp); [now eapply IH; eauto|now inversion H].
Qed.

(** ** The shape of [fetch], [scrape] and [collect] *)

(** [fetch] sends nothing on the channel. *)
Lemma fetch_sends n env m : sends (trace (fetch n env m)) = [].
Proof.
  unfold fetch.
  destruct (requestBuild _ _); [reflexivity|].
  destruct (queryutilParse _ _ _); [|reflexivity].
  unfold bind, emit; simpl.
  destruct (requestSend _ _); reflexivity.
Qed.

Lemma sends_app tr tr' : sends (tr ++ tr') = sends tr ++ sends tr'.
Proof.
  induction tr as [|[b|s|? ? ?] tr IH]; simpl; [reflexivity| |f_equal|]; exact IH.
Qed.

Lemma queries_app tr tr' : queries (tr ++ tr') = queries tr ++ queries tr'.
Proof.
  induction tr as [|[b|s|? ? ?] tr IH]; simpl; [reflexivity|f_equal| |]; exact IH.
Qed.

(** [scrape] is [fetch] followed by at most one send: the value sample,
    when there is a value. *)
Lemma scrape_unfold n env m :
  scrape pf n env m =
  match scrapeValue pf n env m with
  | Ok v => (trace (fetch n env m) ++ [Send (valueSample n m v)], Ok tt)
  | Err e => (trace (fetch n env m), Err e)
  end.
Proof.
  unfold scrape, scrapeValue.
  destruct (fetch n env m) as [tr [datapoints|e]]; simpl; [|reflexivity].
  destruct (List.length datapoints =? 0)%nat; simpl.
  - now rewrite app_nil_r.
  - unfold lift; simpl.
    destruct (latestValue pf datapoints); simpl; [reflexivity|].
    now rewrite app_nil_r.
Qed.

Lemma scrape_outcome n env m :
  outcome (scrape pf n env m) =
  match scrapeValue pf n env m with Ok _ => Ok tt | Err e => Err e end.
Proof. rewrite scrape_unfold. now destruct (scrapeValue pf n env m). Qed.

Lemma scrape_sends n env m :
  sends (trace (scrape pf n env m)) =
  match scrapeValue pf n env m with
  | Ok v => [valueSample n m v]
  | Err _ => []
  end.
Proof.
  rewrite scrape_unfold.
  destruct (scrapeValue pf n env m) as [v|e].
  - change (sends (trace (fetch n env m) ++ [Send (valueSample n m v)])
            = [valueSample n m v]).
    now rewrite sends_app, fetch_sends.
  - apply fetch_sends.
Qed.

(** What the goroutine of a metric sends: the value sample when [scrape]
    succeeds, then the duration sample, then the success sample. *)
Lemma collect_sends n env m :
  sends (collect pf n env m) =
  match scrapeValue pf n env m with
  | Ok v => [valueSample n m v; durationSample m (since env); successSample m 1%float]
  | Err _ => [durationSample m (since env); successSample m 0%float]
  end.
Proof.
  pose proof (scrape_sends n env m) as S.
  pose proof (scrape_outcome n env m) as O.
  unfold collect.
  destruct (scrape pf n env m) as [tr r]; unfold trace, outcome in *; simpl in *.
  destruct (scrapeValue pf n env m); subst r; rewrite !sends_app, S; reflexivity.
Qed.

End Scan.

(** ** One collection pass *)

Lemma Permutation_filter {A} (p : A -> bool) (l l' : list A) :
  Permutation l l' -> Permutation (filter p l) (filter p l').
Proof.
  induction 1 as [|x l l' _ IH|x y l|l l' l'' _ IH1 _ IH2]; simpl.
  - constructor.
  - destruct (p x); [now constructor|exact IH].
  - destruct (p x), (p y); try reflexivity. apply perm_swap.
  - now transitivity (filter p l').
Qed.

Lemma filter_filter_implied {A} (p q : A -> bool) (l : list A) :
  (forall x, q x = true -> p x = true) ->
  filter q (filter p l) = filter q l.
Proof.
  intros I. induction l as [|x l IH]; simpl; [reflexivity|].
  destruct (p x) eqn:P; simpl; destruct (q x) eqn:Q; try now rewrite IH.
  apply I in Q. congruence.
Qed.

Lemma nodupb_sound {A} (eqb : A -> A -> bool) (l : list A) :
  (forall x, eqb x x = true) -> nodupb eqb l = true -> NoDup l.
Proof.
  intros R. induction l as [|x l IH]; simpl; intros H.
  - constructor.
  - apply andb_prop in H as [N H]. constructor; [|now apply IH].
    intros I. apply negb_true_iff in N.
    assert (E : existsb (eqb x) l = true) by (apply existsb_exists; eauto).
    congruence.
Qed.

Lemma Desc_eqb_eq a b : prometheus.Desc_eqb a b = true <-> a = b.
Proof.
  unfold prometheus.Desc_eqb.
  destruct (prometheus.Desc_eq_dec a b); split; congruence.
Qed.

Lemma Desc_eqb_neq a b : prometheus.Desc_eqb a b = false <-> a <> b.
Proof.
  unfold prometheus.Desc_eqb.
  destruct (prometheus.Desc_eq_dec a b); split; congruence.
Qed.

Lemma hasName_eq name s :
  hasName name s = true <-> prometheus.labelValues s = [name].
Proof.
  unfold hasName.
  destruct (list_eq_dec string_dec (prometheus.labelValues s) [name]);
    split; congruence.
Qed.

Lemma distinctMetricsb_sound ms : distinctMetricsb ms = true -> distinctMetrics ms.
Proof.
  unfold distinctMetricsb, distinctMetrics. intros H.
  apply andb_prop in H as [H F]. apply andb_prop in H as [N D].
  split; [|split].
  - apply nodupb_sound with (eqb := String.eqb); [apply String.eqb_refl|exact N].
  - apply nodupb_sound with (eqb := prometheus.Desc_eqb); [|exact D].
    intros x. now apply Desc_eqb_eq.
  - apply Forall_forall. intros m I.
    rewrite forallb_forall in F. specialize (F m I).
    apply andb_prop in F as [F1 F2].
    apply negb_true_iff in F1, F2. split; now apply Desc_eqb_neq.
Qed.

(** The fixed metric list tells its metrics apart. *)
Lemma metrics_distinct : distinctMetrics metrics.
Proof. apply distinctMetricsb_sound. vm_compute. reflexivity. Qed.

Lemma meta_descs_differ : scrapeDurationDesc <> scrapeSuccessDesc.
Proof. apply Desc_eqb_neq. vm_compute. reflexivity. Qed.

Lemma In_map_inj {A B} (f : A -> B) (l : list A) x y :
  NoDup (map f l) -> In x l -> In y l -> f x = f y -> x = y.
Proof.
  induction l as [|a l IH]; simpl; intros N Hx Hy E; [contradiction|].
  inversion N as [|? ? Na N']; subst.
  destruct Hx as [->|Hx], Hy as [->|Hy]; auto.
  - exfalso. apply Na. rewrite E. now apply in_map.
  - exfalso. apply Na. rewrite <- E. now apply in_map.
Qed.

(** Among queues indexed by a duplicate-free list, when only the queue of
    [m] is not empty, the queues hold what that queue holds and a single
    goroutine is sending. *)
Lemma concat_single {X A} (g : X -> list A) (ms : list X) (m : X) :
  NoDup ms -> In m ms ->
  (forall m', In m' ms -> m' <> m -> g m' = []) ->
  List.concat (map g ms) = g m /\ (goroutines.live (map g ms) <= 1)%nat.
Proof.
  assert (Z0 : forall l : list X, (forall m', In m' l -> g m' = []) ->
               List.concat (map g l) = [] /\ goroutines.live (map g l) = O).
  { induction l as [|a l IH]; intros H; [split; reflexivity|].
    destruct IH as [C L]; [intros; apply H; now right|].
    simpl. rewrite (H a (or_introl eq_refl)), C. split; [reflexivity|].
    unfold goroutines.live in *. simpl. exact L. }
  induction ms as [|a ms IH]; intros N I H; [contradiction|].
  inversion N as [|? ? Na N']; subst.
  destruct I as [->|I].
  - destruct (Z0 ms) as [C L].
    { intros m' I'. apply H; [now right|]. now intros ->. }
    simpl. rewrite C, app_nil_r. split; [reflexivity|].
    unfold goroutines.live in *. simpl. destruct (g m); simpl; lia.
  - destruct IH as [C L]; [exact N'|exact I|intros; apply H; auto; now right|].
    assert (E : g a = []).
    { apply H; [now left|]. now intros ->. }
    simpl. rewrite E, C. split; [reflexivity|].
    unfold goroutines.live in *. simpl. exact L.
Qed.

Lemma Desc_eqb_refl a : prometheus.Desc_eqb a a = true.
Proof. now apply Desc_eqb_eq. Qed.

Lemma hasDesc_value d n m v :
  hasDesc d (valueSample n m v) = prometheus.Desc_eqb (Desc m) d.
Proof. reflexivity. Qed.

Lemma hasDesc_duration d m x :
  hasDesc d (durationSample m x) = prometheus.Desc_eqb scrapeDurationDesc d.
Proof. reflexivity. Qed.

Lemma hasDesc_success d m x :
  hasDesc d (successSample m x) = prometheus.Desc_eqb scrapeSuccessDesc d.
Proof. reflexivity. Qed.

Lemma hasName_same name s :
  prometheus.labelValues s = [name] -> hasName name s = true.
Proof. apply hasName_eq. Qed.

Lemma hasName_other name name' s :
  prometheus.labelValues s = [name'] -> name' <> name -> hasName name s = false.
Proof.
  intros E N. destruct (hasName name s) eqn:H; [|reflexivity].
  apply hasName_eq in H. congruence.
Qed.

(** Which samples are about which metric. *)
Lemma sampleOf_value m n m' v :
  Desc m' <> scrapeDurationDesc -> Desc m' <> scrapeSuccessDesc ->
  sampleOf m (valueSample n m' v) = prometheus.Desc_eqb (Desc m') (Desc m).
Proof.
  intros D S. unfold sampleOf, isMeta. rewrite !hasDesc_value.
  rewrite (proj2 (Desc_eqb_neq _ _) D), (proj2 (Desc_eqb_neq _ _) S).
  now rewrite orb_false_r.
Qed.

Lemma sampleOf_duration_own m x : sampleOf m (durationSample m x) = true.
Proof.
  unfold sampleOf, isMeta. rewrite !hasDesc_duration, Desc_eqb_refl.
  rewrite hasName_same by reflexivity. now rewrite orb_true_r.
Qed.

Lemma sampleOf_success_own m x : sampleOf m (successSample m x) = true.
Proof.
  unfold sampleOf, isMeta. rewrite !hasDesc_success, Desc_eqb_refl.
  rewrite hasName_same by reflexivity. now rewrite !orb_true_r.
Qed.

Lemma sampleOf_duration_other m m' x :
  Desc m <> scrapeDurationDesc -> Name m' <> Name m ->
  sampleOf m (durationSample m' x) = false.
Proof.
  intros D N. unfold sampleOf. rewrite hasDesc_duration.
  rewrite (proj2 (Desc_eqb_neq scrapeDurationDesc (Desc m))) by congruence.
  rewrite (@hasName_other (Name m) (Name m')) by (reflexivity || assumption).
  now rewrite andb_false_r.
Qed.

Lemma sampleOf_success_other m m' x :
  Desc m <> scrapeSuccessDesc -> Name m' <> Name m ->
  sampleOf m (successSample m' x) = false.
Proof.
  intros D N. unfold sampleOf. rewrite hasDesc_success.
  rewrite (proj2 (Desc_eqb_neq scrapeSuccessDesc (Desc m))) by congruence.
  rewrite (@hasName_other (Name m) (Name m')) by (reflexivity || assumption).
  now rewrite andb_false_r.
Qed.

Section Pass.
Variable pf : string -> nat -> option float.

(** The samples of the goroutine of [m] are about [m]. *)
Lemma collect_sends_own n env m :
  Desc m <> scrapeDurationDesc -> Desc m <> scrapeSuccessDesc ->
  filter (sampleOf m) (sends (collect pf n env m)) = sends (collect pf n env m).
Proof.
  intros D S.
  rewrite collect_sends. destruct (scrapeValue pf n env m); cbn [filter].
  - rewrite sampleOf_value, Desc_eqb_refl by assumption.
    now rewrite sampleOf_duration_own, sampleOf_success_own.
  - now rewrite sampleOf_duration_own, sampleOf_success_own.
Qed.

(** The samples of the goroutine of another metric are not. *)
Lemma collect_sends_other ms n env m m' :
  distinctMetrics ms -> In m ms -> In m' ms -> m' <> m ->
  filter (sampleOf m) (sends (collect pf n env m')) = [].
Proof.
  intros (NN & ND & F) I I' Ne.
  rewrite Forall_forall in F.
  destruct (F m I) as [Dm Sm]. destruct (F m' I') as [Dm' Sm'].
  assert (Nd : Desc m' <> Desc m).
  { intros E. apply Ne. eapply In_map_inj with (f := Desc); eassumption. }
  assert (Nn : Name m' <> Name m).
  { intros E. apply Ne. eapply In_map_inj with (f := Name); eassumption. }
  rewrite collect_sends. destruct (scrapeValue pf n env m'); cbn [filter].
  - rewrite sampleOf_value, (proj2 (Desc_eqb_neq _ _) Nd) by assumption.
    now rewrite sampleOf_duration_other, sampleOf_success_other.
  - now rewrite sampleOf_duration_other, sampleOf_success_other.
Qed.

(** What the channel carries about a metric is what the goroutine of that
    metric sent, in the order it sent it, whatever the schedule and
    whatever the other goroutines met. *)
Lemma Collect_projection n w schedule m :
  distinctMetrics (nc_metrics n) -> In m (nc_metrics n) ->
  filter (sampleOf m) (Collect pf n w schedule)
  = sends (collect pf n (w (Name m)) m).
Proof.
  intros D I. unfold Collect.
  pose proof D as (NN & ND & F).
  assert (Dm : Desc m <> scrapeDurationDesc /\ Desc m <> scrapeSuccessDesc).
  { rewrite Forall_forall in F. now apply F. }
  set (f := fun m0 => sends (collect pf n (w (Name m0)) m0)).
  destruct (@concat_single _ _ (fun m0 => filter (sampleOf m) (f m0))
                           (nc_metrics n) m) as [C L].
  - eapply NoDup_map_inv; exact NN.
  - exact I.
  - intros m' I' Ne. unfold f. eapply collect_sends_other; eauto.
  - rewrite run_filter_single.
    + rewrite <- concat_filter, map_map, C. unfold f.
      now apply collect_sends_own.
    + now rewrite map_map.
Qed.

(** The channel carries the samples of all goroutines, each once. *)
Lemma Collect_Permutation n w schedule :
  Permutation (Collect pf n w schedule)
    (List.concat (map (fun m => sends (collect pf n (w (Name m)) m)) (nc_metrics n))).
Proof. apply run_Permutation. Qed.

End Pass.

(** ** Floats, request bodies and timestamps *)

(** Two floats that [PrimFloat.eqb] tells apart are not equal. *)
Lemma float_neq (a b : float) :
  PrimFloat.eqb a a = true -> PrimFloat.eqb a b = false -> a <> b.
Proof. intros R H E. rewrite <- E in H. congruence. Qed.

Lemma one_neq_zero : 1%float <> 0%float.
Proof.
  intros E.
  assert (H : PrimFloat.eqb 1 1 = PrimFloat.eqb 1 0) by (now rewrite <- E).
  vm_compute in H. discriminate.
Qed.

Lemma find_filter {A} (p q : A -> bool) (l : list A) :
  (forall x, p x = true -> q x = true) -> find p (filter q l) = find p l.
Proof.
  intros I. induction l as [|x l IH]; simpl; [reflexivity|].
  destruct (q x) eqn:Q; simpl; destruct (p x) eqn:P; auto.
  apply I in P. congruence.
Qed.

(** [Get] after [Set] of the same key, and of another key. *)
Lemma Get_Set_same v key x : url.Get (url.Set_ v key x) key = x.
Proof.
  unfold url.Get, url.lookup, url.Set_. cbn [find fst snd].
  now rewrite String.eqb_refl.
Qed.

Lemma Get_Set_other v key key' x :
  key' <> key -> url.Get (url.Set_ v key' x) key = url.Get v key.
Proof.
  intros N. unfold url.Get, url.lookup, url.Set_. cbn [find fst snd].
  rewrite (proj2 (String.eqb_neq key' key) N).
  rewrite find_filter; [reflexivity|].
  intros [k vs] E. cbn [fst] in *. apply String.eqb_eq in E. subst k.
  apply negb_true_iff, String.eqb_neq. congruence.
Qed.

Lemma chunks_timestampLayout :
  time.chunks 0 timestampLayout =
  [time.stdLongYear; time.literal "-"; time.stdZeroMonth; time.literal "-";
   time.stdZeroDay; time.literal " "; time.stdHour; time.literal ":";
   time.stdZeroMinute; time.literal ":"; time.stdZeroSecond].
Proof. vm_compute. reflexivity. Qed.

Lemma concat_chunks (f : time.chunk -> string) k1 k2 k3 k4 k5 k6 k7 k8 k9 k10 k11 :
  String.concat "" (map f [k1; k2; k3; k4; k5; k6; k7; k8; k9; k10; k11])
  = (f k1 ++ f k2 ++ f k3 ++ f k4 ++ f k5 ++ f k6 ++ f k7 ++ f k8 ++ f k9
     ++ f k10 ++ f k11)%string.
Proof. reflexivity. Qed.

Lemma formatChunk_literal t c : time.formatChunk t (time.literal c) = String c "".
Proof. reflexivity. Qed.

Lemma formatChunk_fields t :
  time.formatChunk t time.stdLongYear = time.appendInt (time.year (time.civil t)) 4
  /\ time.formatChunk t time.stdZeroMonth = time.appendInt (time.month (time.civil t)) 2
  /\ time.formatChunk t time.stdZeroDay = time.appendInt (time.day (time.civil t)) 2
  /\ time.formatChunk t time.stdHour = time.appendInt (time.hour (time.civil t)) 2
  /\ time.formatChunk t time.stdZeroMinute = time.appendInt (time.minute (time.civil t)) 2
  /\ time.formatChunk t time.stdZeroSecond = time.appendInt (time.second (time.civil t)) 2.
Proof. unfold time.formatChunk. repeat split. Qed.

(** The layout of the collector writes the calendar fields of a time in the
    order year, month, day, hour, minute, second. *)
Lemma Format_timestampLayout t :
  time.zoneOffset t = 0 ->
  time.Format t timestampLayout = utcTimestamp (time.instant t).
Proof.
  intros Z0. destruct t as [i z]. cbn [time.zoneOffset time.instant] in *. subst z.
  unfold time.Format.
  rewrite chunks_timestampLayout, concat_chunks, !formatChunk_literal.
  destruct (formatChunk_fields {| time.instant := i; time.zoneOffset := 0 |})
    as (-> & -> & -> & -> & -> & ->).
  unfold utcTimestamp. reflexivity.
Qed.

(** The instant of a data point whose timestamp parses. *)
Lemma instantOf_timestampOf dp t :
  timestampOf dp = Some t -> instantOf dp = Some (time.instant t).
Proof. unfold instantOf. now intros ->. Qed.

Lemma sameInstant_refl a : sameInstant a a = true.
Proof. destruct a; [apply Z.eqb_refl|reflexivity]. Qed.

(** Among data points at pairwise different instants, a point that no other
    is later than is later than every other. *)
Lemma distinct_notAfter_earlier pre dp post t :
  NoDup (map instantOf (pre ++ dp :: post)) ->
  timestampOf dp = Some t ->
  Forall (notAfter t) (pre ++ dp :: post) ->
  Forall (earlier t) pre /\ Forall (earlier t) post.
Proof.
  intros D T N. rewrite map_app in D. cbn [map] in D.
  apply NoDup_remove_2 in D. rewrite (instantOf_timestampOf _ T) in D.
  apply Forall_app in N as [Npre N]. inversion N as [|? ? _ Npost]; subst.
  split; apply Forall_forall; intros d I t' T'.
  - rewrite Forall_forall in Npre. pose proof (Npre d I t' T') as L.
    destruct (Z.eq_dec (time.instant t') (time.instant t)) as [E|E]; [|lia].
    exfalso. apply D, in_or_app. left. rewrite <- E, <- (instantOf_timestampOf _ T').
    now apply in_map.
  - rewrite Forall_forall in Npost. pose proof (Npost d I t' T') as L.
    destruct (Z.eq_dec (time.instant t') (time.instant t)) as [E|E]; [|lia].
    exfalso. apply D, in_or_app. right. rewrite <- E, <- (instantOf_timestampOf _ T').
    now apply in_map.
Qed.

(** ** More on requests and passes *)

Lemma NoDup_map_filter {A B} (keep : A -> bool) (key : A -> B) (l : list A) :
  NoDup (map key l) -> NoDup (map key (filter keep l)).
Proof.
  induction l as [|a l IH]; simpl; intros N; [constructor|].
  inversion N as [|? ? Na N']; subst.
  destruct (keep a); simpl; [|now apply IH].
  constructor; [|now apply IH].
  intros I. apply Na. apply in_map_iff in I as (x & E & I).
  apply filter_In in I as [I _]. rewrite <- E. now apply in_map.
Qed.

Lemma distinctMetrics_filter p ms :
  distinctMetrics ms -> distinctMetrics (filter p ms).
Proof.
  intros (NN & ND & F). repeat split.
  - now apply NoDup_map_filter.
  - now apply NoDup_map_filter.
  - apply Forall_forall. intros m I. apply filter_In in I as [I _].
    rewrite Forall_forall in F. now apply F.
Qed.

(** The requests of [fetch]: none when the request cannot be built or
    encoded, otherwise one, whose window is set after the encoding. *)
Lemma fetch_queries n env m :
  queries (trace (fetch n env m)) = [] \/
  exists body,
    queries (trace (fetch n env m)) =
    [ url.Set_
        (url.Set_ body "StartTime"
           (time.Format (time.Add (time.In_UTC (now env)) (180 * time.Second * -1))
                        timestampLayout))
        "EndTime" (time.Format (time.In_UTC (now env)) timestampLayout) ].
Proof.
  unfold fetch.
  destruct (requestBuild _ _); [now left|].
  destruct (queryutilParse _ _ _) as [body|]; [|now left].
  right. exists body.
  destruct (requestSend _ _); reflexivity.
Qed.

Section MorePass.
Variable pf : string -> nat -> option float.

Lemma scrape_queries n env m :
  queries (trace (scrape pf n env m)) = queries (trace (fetch n env m)).
Proof.
  rewrite scrape_unfold. destruct (scrapeValue pf n env m) as [v|e]; [|reflexivity].
  change (queries (trace (fetch n env m) ++ [Send (valueSample n m v)])
          = queries (trace (fetch n env m))).
  rewrite queries_app. apply app_nil_r.
Qed.

(** What a goroutine does depends on the collector through the instance
    identifier and the region only. *)
Lemma collect_identity n n' env m :
  nasInstanceIdentifier n = nasInstanceIdentifier n' -> region n = region n' ->
  collect pf n env m = collect pf n' env m.
Proof.
  destruct n as [c ms i r], n' as [c' ms' i' r'].
  cbn [nasInstanceIdentifier region]. intros -> ->. reflexivity.
Qed.

(** The duration samples of a pass: one per metric of the list, in the
    order of the list once the others are left out. *)
Lemma duration_samples n w (ms : list Metric) :
  Forall (fun m => Desc m <> scrapeDurationDesc /\ Desc m <> scrapeSuccessDesc) ms ->
  filter (hasDesc scrapeDurationDesc)
    (List.concat (map (fun m => sends (collect pf n (w (Name m)) m)) ms))
  = map (fun m => durationSample m (since (w (Name m)))) ms.
Proof.
  induction 1 as [|m ms [D S] _ IH]; [reflexivity|].
  cbn [map List.concat]. rewrite filter_app, IH. clear IH.
  rewrite collect_sends.
  destruct (scrapeValue pf n (w (Name m)) m); cbn [filter];
    rewrite ?hasDesc_value, hasDesc_duration, hasDesc_success, Desc_eqb_refl,
      ?(proj2 (Desc_eqb_neq _ _) D),
      (proj2 (Desc_eqb_neq scrapeSuccessDesc scrapeDurationDesc))
      by (intros E; now apply meta_descs_differ);
    reflexivity.
Qed.

(** The success samples of a pass, likewise; each says whether [scrape]
    returned a value. *)
Lemma success_samples n w (ms : list Metric) :
  Forall (fun m => Desc m <> scrapeDurationDesc /\ Desc m <> scrapeSuccessDesc) ms ->
  filter (hasDesc scrapeSuccessDesc)
    (List.concat (map (fun m => sends (collect pf n (w (Name m)) m)) ms))
  = map (fun m => successSample m
                    (if is_ok (scrapeValue pf n (w (Name m)) m) then 1 else 0)%float) ms.
Proof.
  induction 1 as [|m ms [D S] _ IH]; [reflexivity|].
  cbn [map List.concat]. rewrite filter_app, IH. clear IH.
  rewrite collect_sends.
  destruct (scrapeValue pf n (w (Name m)) m); cbn [filter is_ok];
    rewrite ?hasDesc_value, hasDesc_duration, hasDesc_success, Desc_eqb_refl,
      ?(proj2 (Desc_eqb_neq _ _) S),
      (proj2 (Desc_eqb_neq scrapeDurationDesc scrapeSuccessDesc))
      by exact meta_descs_differ;
    reflexivity.
Qed.

(** The value samples of a pass: one per metric whose [scrape] returned a
    value. *)
Lemma value_samples n w (ms : list Metric) :
  Forall (fun m => Desc m <> scrapeDurationDesc /\ Desc m <> scrapeSuccessDesc) ms ->
  filter (fun s => negb (isMeta s))
    (List.concat (map (fun m => sends (collect pf n (w (Name m)) m)) ms))
  = List.concat
      (map (fun m => match scrapeValue pf n (w (Name m)) m with
                     | Ok v => [valueSample n m v]
                     | Err _ => []
                     end) ms).
Proof.
  induction 1 as [|m ms [D S] _ IH]; [reflexivity|].
  cbn [map List.concat]. rewrite filter_app, IH. clear IH. f_equal.
  rewrite collect_sends. unfold isMeta.
  destruct (scrapeValue pf n (w (Name m)) m); cbn [filter];
    rewrite ?hasDesc_value, !hasDesc_duration, !hasDesc_success, !Desc_eqb_refl,
      ?(proj2 (Desc_eqb_neq _ _) D), ?(proj2 (Desc_eqb_neq _ _) S);
    rewrite ?orb_true_r; reflexivity.
Qed.

End MorePass.

(** * The collector's contract *)

Section Contract.
Variable pf : string -> nat -> option float.

(** [scrape] on a response that has at least one data point. *)
Lemma scrapeValue_response n env m datapoints :
  outcome (fetch n env m) = Ok datapoints -> datapoints <> [] ->
  scrapeValue pf n env m = latestValue pf datapoints.
Proof.
  intros F N. unfold scrapeValue. rewrite F.
  destruct datapoints; [contradiction|reflexivity].
Qed.

(** The latest point wins, whatever the order of the response: when every
    point of the response is well formed, the timestamps differ pairwise
    and the latest is not before the zero time, [scrape] sends the value
    of the point with the latest timestamp. *)
Lemma latest_point_wins n env m pre dp post t v :
  outcome (fetch n env m) = Ok (pre ++ dp :: post) ->
  Forall (wellFormed pf) (pre ++ dp :: post) ->
  timestampOf dp = Some t -> sumOf pf dp = Some v ->
  0 <= time.instant t ->
  Forall (earlier t) pre -> Forall (earlier t) post ->
  sends (trace (scrape pf n env m)) = [valueSample n m v]
  /\ outcome (scrape pf n env m) = Ok tt.
Proof.
  intros F W Ht Hv Z0 Epre Epost.
  assert (V : scrapeValue pf n env m = Ok v).
  { erewrite scrapeValue_response; [|exact F|now destruct pre].
    apply Forall_app in W as [Wpre W]. inversion W as [|? ? _ Wpost]; subst.
    apply scan_last_latest with (t := t); auto.
    - eapply Forall_impl; [|exact Epre]. intros d E t' Ht'. apply E in Ht'. lia.
    - eapply Forall_impl; [|exact Wpost]. now intros d [T _]. }
  rewrite scrape_sends, scrape_outcome, V. now split.
Qed.

(** C1: the value sent is that of the latest data point.  The response
    holds at least the data point [dp]; every data point is well formed,
    that is, its timestamp and its value parse; no two data points are at
    the same instant; [dp], wherever it stands in the response, is the one
    no other is later than, and its timestamp is not before the zero time
    of Go, as is every timestamp answering a query for the last three
    minutes.  Then [scrape] sends one sample, whose value is the value of
    [dp] as parsed, no sum or mean of several points, and succeeds. *)
Theorem latest_point_is_reported n env m datapoints dp t v :
  outcome (fetch n env m) = Ok datapoints ->
  Forall (wellFormed pf) datapoints ->
  NoDup (map instantOf datapoints) ->
  In dp datapoints ->
  timestampOf dp = Some t -> sumOf pf dp = Some v ->
  0 <= time.instant t ->
  Forall (notAfter t) datapoints ->
  sends (trace (scrape pf n env m)) = [valueSample n m v]
  /\ outcome (scrape pf n env m) = Ok tt.
Proof.
  intros F W D I T S Z0 N.
  destruct (in_split _ _ I) as (pre & post & ->).
  destruct (distinct_notAfter_earlier _ _ _ D T N) as [Epre Epost].
  eapply latest_point_wins; eassumption.
Qed.

(** C2, as the code has it: among the data points that share the latest
    timestamp the LAST one in response order gives the value.  Every point
    of the response is well formed, [dp] carries the latest timestamp [t],
    which is not before the zero time, no point before [dp] is later than
    [t] (points at [t] itself may stand there) and every point after [dp]
    is earlier: then [scrape] sends the value of [dp] and succeeds. *)
Theorem tie_last_seen_wins n env m pre dp post t v :
  outcome (fetch n env m) = Ok (pre ++ dp :: post) ->
  Forall (wellFormed pf) (pre ++ dp :: post) ->
  timestampOf dp = Some t -> sumOf pf dp = Some v ->
  0 <= time.instant t ->
  Forall (notAfter t) pre -> Forall (earlier t) post ->
  sends (trace (scrape pf n env m)) = [valueSample n m v]
  /\ outcome (scrape pf n env m) = Ok tt.
Proof.
  intros F W Ht Hv Z0 Npre Epost.
  assert (V : scrapeValue pf n env m = Ok v).
  { erewrite scrapeValue_response; [|exact F|now destruct pre].
    apply Forall_app in W as [Wpre W]. inversion W as [|? ? _ Wpost]; subst.
    apply scan_last_latest with (t := t); auto.
    eapply Forall_impl; [|exact Wpost]. now intros d [T _]. }
  rewrite scrape_sends, scrape_outcome, V. now split.
Qed.

(** C3, as the code has it: a data point whose timestamp does not parse
    fails the fetch with a parse failure wherever it stands; a data point
    whose value does not parse fails it when its timestamp is neither
    before the zero time nor before the timestamp of a point that precedes
    it in the response. *)
Theorem malformed_point_fails_fetch n env m pre dp post :
  outcome (fetch n env m) = Ok (pre ++ dp :: post) ->
  timestampOf dp = None
  \/ (exists t, timestampOf dp = Some t /\ sumOf pf dp = None
                /\ 0 <= time.instant t /\ Forall (notAfter t) pre) ->
  exists e, outcome (scrape pf n env m) = Err e /\ kind e = ParseFailure.
Proof.
  intros F H.
  assert (V : exists e, scrapeValue pf n env m = Err e /\ kind e = ParseFailure).
  { erewrite scrapeValue_response; [|exact F|now destruct pre].
    destruct H as [T|(t & T & S & Z0 & N)].
    - apply scan_bad_timestamp. apply Exists_app. right. now constructor.
    - now apply scan_bad_sum with (t := t). }
  destruct V as (e & V & K). exists e. rewrite scrape_outcome, V. now split.
Qed.

(** C4: in every pass of a collector made by [NewNASCollector], whatever
    the goroutines meet and however they are scheduled, the metric names on
    the duration samples are the names of the fixed metric list, each once,
    and so are the metric names on the success samples; the list has
    eleven names, all different. *)
Theorem every_metric_reports id ak sk rg (w : World) schedule :
  let out := Collect pf (NewNASCollector id ak sk rg) w schedule in
  Permutation (map prometheus.labelValues (filter (hasDesc scrapeDurationDesc) out))
              (map (fun m => [Name m]) metrics)
  /\ Permutation (map prometheus.labelValues (filter (hasDesc scrapeSuccessDesc) out))
                 (map (fun m => [Name m]) metrics)
  /\ NoDup (map Name metrics)
  /\ List.length metrics = 11%nat.
Proof.
  intros out.
  pose proof metrics_distinct as (NN & _ & F).
  pose proof (Collect_Permutation pf (NewNASCollector id ak sk rg) w schedule) as P.
  fold out in P. cbn [nc_metrics NewNASCollector] in P.
  repeat split; [| |exact NN].
  - rewrite (Permutation_filter _ P), duration_samples by exact F.
    now rewrite map_map.
  - rewrite (Permutation_filter _ P), success_samples by exact F.
    now rewrite map_map.
Qed.

(** C5: for every metric of a pass, the success sample is 1 exactly when
    [scrape] returned no error and 0 exactly when it returned one; with an
    error the pass carries no value sample of the metric, without one it
    carries exactly one, labelled with the instance identifier and the
    region. *)
Theorem success_flag_tells_outcome id ak sk rg (w : World) schedule m :
  In m metrics ->
  let n := NewNASCollector id ak sk rg in
  let out := Collect pf n w schedule in
  let result := outcome (scrape pf n (w (Name m)) m) in
  (exists x,
      filter (fun s => hasDesc scrapeSuccessDesc s && hasName (Name m) s) out
      = [successSample m x]
      /\ (x = 1%float <-> result = Ok tt)
      /\ (x = 0%float <-> exists e, result = Err e))
  /\ ((exists e, result = Err e) -> filter (hasDesc (Desc m)) out = [])
  /\ (result = Ok tt ->
      exists v, filter (hasDesc (Desc m)) out
                = [prometheus.MustNewConstMetric (Desc m) prometheus.GaugeValue v [id; rg]]).
Proof.
  intros I n out result.
  pose proof metrics_distinct as D.
  pose proof D as (_ & _ & F). rewrite Forall_forall in F. destruct (F m I) as [Dd Ds].
  pose proof (@Collect_projection pf n w schedule m D I) as P. fold out in P.
  assert (Psucc : filter (fun s => hasDesc scrapeSuccessDesc s && hasName (Name m) s) out
                  = filter (fun s => hasDesc scrapeSuccessDesc s && hasName (Name m) s)
                           (sends (collect pf n (w (Name m)) m))).
  { rewrite <- P. symmetry. apply filter_filter_implied.
    intros s H. apply andb_prop in H as [H1 H2].
    unfold sampleOf, isMeta. rewrite H1, H2. now rewrite !orb_true_r. }
  assert (Pval : filter (hasDesc (Desc m)) out
                 = filter (hasDesc (Desc m)) (sends (collect pf n (w (Name m)) m))).
  { rewrite <- P. symmetry. apply filter_filter_implied.
    intros s H. unfold sampleOf. now rewrite H. }
  rewrite Psucc, Pval, collect_sends. unfold result. rewrite scrape_outcome.
  assert (Nd : prometheus.Desc_eqb scrapeDurationDesc scrapeSuccessDesc = false)
    by (apply Desc_eqb_neq, meta_descs_differ).
  assert (Dm : prometheus.Desc_eqb scrapeDurationDesc (Desc m) = false)
    by (apply Desc_eqb_neq; congruence).
  assert (Sm : prometheus.Desc_eqb scrapeSuccessDesc (Desc m) = false)
    by (apply Desc_eqb_neq; congruence).
  assert (Ds' : prometheus.Desc_eqb (Desc m) scrapeSuccessDesc = false)
    by (now apply Desc_eqb_neq).
  assert (Hn : forall x, hasName (Name m) (successSample m x) = true)
    by (intros x; now apply hasName_same).
  destruct (scrapeValue pf n (w (Name m)) m) as [v|e]; cbn [filter];
    rewrite ?hasDesc_value, !hasDesc_duration, !hasDesc_success, !Desc_eqb_refl,
      ?Nd, ?Dm, ?Sm, ?Ds';
    cbn [andb]; rewrite Hn.
  - split; [|split].
    + exists 1%float. split; [reflexivity|]. split; split.
      * reflexivity.
      * reflexivity.
      * intros E. exfalso. now apply one_neq_zero.
      * intros [e E]. discriminate.
    + intros [e E]. discriminate.
    + intros _. exists v. reflexivity.
  - split; [|split].
    + exists 0%float. split; [reflexivity|]. split; split.
      * intros E. exfalso. apply one_neq_zero. now symmetry.
      * intros E. discriminate.
      * eauto.
      * reflexivity.
    + reflexivity.
    + intros E. discriminate.
Qed.

(** C6: when the response to the query of a metric holds no data point,
    [scrape] fails for want of data, the pass carries the duration sample
    and a success sample of 0 for that metric and nothing else about it,
    and what the pass carries about any other metric is what a pass of the
    collector without that metric carries about it, whatever the
    schedules. *)
Theorem empty_response_is_no_data id ak sk rg (w : World) schedule schedule' b :
  In b metrics ->
  let n := NewNASCollector id ak sk rg in
  outcome (fetch n (w (Name b)) b) = Ok [] ->
  (exists e, outcome (scrape pf n (w (Name b)) b) = Err e /\ kind e = NoData)
  /\ filter (sampleOf b) (Collect pf n w schedule)
     = [durationSample b (since (w (Name b))); successSample b 0%float]
  /\ forall a, In a metrics -> a <> b ->
       filter (sampleOf a) (Collect pf n w schedule)
       = filter (sampleOf a) (Collect pf (without b n) w schedule').
Proof.
  intros I n E.
  pose proof metrics_distinct as D.
  assert (V : scrapeValue pf n (w (Name b)) b = Err ErrNoDatapoints).
  { unfold scrapeValue. now rewrite E. }
  split; [|split].
  - exists ErrNoDatapoints. rewrite scrape_outcome, V. now split.
  - rewrite (@Collect_projection pf n w schedule b D I), collect_sends, V.
    reflexivity.
  - intros a Ia Ne.
    rewrite (@Collect_projection pf n w schedule a D Ia).
    rewrite Collect_projection.
    + now rewrite (@collect_identity pf n (without b n) (w (Name a)) a eq_refl eq_refl).
    + cbn [without nc_metrics n NewNASCollector]. now apply distinctMetrics_filter.
    + cbn [without nc_metrics n NewNASCollector]. apply filter_In. split; [exact Ia|].
      apply negb_true_iff, String.eqb_neq. intros En. apply Ne.
      destruct D as (NN & _). eapply In_map_inj with (f := Name); eassumption.
Qed.

(** C7: what a pass carries about a metric depends on the outcome of that
    metric's own fetch only.  Two passes in which the fetch of [a] has the
    same outcome, whatever the fetches of the other metrics do and however
    the goroutines are scheduled, carry the same value sample and the same
    success sample for [a], and duration samples with the same labels; if
    the fetch of [a] also took the same time, they carry the same samples
    for [a] altogether. *)
Theorem metrics_do_not_interfere id ak sk rg (w1 w2 : World) s1 s2 a :
  In a metrics ->
  let n := NewNASCollector id ak sk rg in
  outcome (fetch n (w1 (Name a)) a) = outcome (fetch n (w2 (Name a)) a) ->
  map forgetDuration (filter (sampleOf a) (Collect pf n w1 s1))
  = map forgetDuration (filter (sampleOf a) (Collect pf n w2 s2))
  /\ (since (w1 (Name a)) = since (w2 (Name a)) ->
      filter (sampleOf a) (Collect pf n w1 s1)
      = filter (sampleOf a) (Collect pf n w2 s2)).
Proof.
  intros I n E.
  pose proof metrics_distinct as D.
  rewrite (@Collect_projection pf n w1 s1 a D I), (@Collect_projection pf n w2 s2 a D I),
    !collect_sends.
  assert (V : scrapeValue pf n (w1 (Name a)) a = scrapeValue pf n (w2 (Name a)) a).
  { unfold scrapeValue. now rewrite E. }
  rewrite V. split.
  - destruct (scrapeValue pf n (w2 (Name a)) a); cbn [map]; repeat f_equal;
      unfold forgetDuration; rewrite !hasDesc_duration, Desc_eqb_refl; reflexivity.
  - now intros ->.
Qed.

(** C8, as the code has it: two passes whose fetches have the same
    outcomes carry the same samples up to the order in which the
    goroutines got to send and up to the values of the duration samples,
    which are measured; when the measurements agree as well, the two
    passes carry the same samples up to order. *)
Theorem passes_agree_up_to_durations id ak sk rg (w1 w2 : World) s1 s2 :
  let n := NewNASCollector id ak sk rg in
  (forall m, In m metrics ->
     outcome (fetch n (w1 (Name m)) m) = outcome (fetch n (w2 (Name m)) m)) ->
  Permutation (map forgetDuration (Collect pf n w1 s1))
              (map forgetDuration (Collect pf n w2 s2))
  /\ ((forall m, In m metrics -> since (w1 (Name m)) = since (w2 (Name m))) ->
      Permutation (Collect pf n w1 s1) (Collect pf n w2 s2)).
Proof.
  intros n E.
  pose proof (Collect_Permutation pf n w1 s1) as P1.
  pose proof (Collect_Permutation pf n w2 s2) as P2.
  cbn [nc_metrics n NewNASCollector] in P1, P2.
  assert (V : forall m, In m metrics ->
              scrapeValue pf n (w1 (Name m)) m = scrapeValue pf n (w2 (Name m)) m).
  { intros m I. unfold scrapeValue. now rewrite (E m I). }
  split.
  - rewrite P1, P2, !concat_map, !map_map.
    replace (map (fun m => map forgetDuration (sends (collect pf n (w1 (Name m)) m))) metrics)
      with (map (fun m => map forgetDuration (sends (collect pf n (w2 (Name m)) m))) metrics);
      [reflexivity|].
    apply map_ext_in. intros m I. rewrite !collect_sends, (V m I).
    destruct (scrapeValue pf n (w2 (Name m)) m); cbn [map]; repeat f_equal;
      unfold forgetDuration; rewrite !hasDesc_duration, Desc_eqb_refl; reflexivity.
  - intros S. rewrite P1, P2.
    replace (map (fun m => sends (collect pf n (w1 (Name m)) m)) metrics)
      with (map (fun m => sends (collect pf n (w2 (Name m)) m)) metrics);
      [reflexivity|].
    apply map_ext_in. intros m I. now rewrite !collect_sends, (V m I), (S m I).
Qed.

(** C9: every request [scrape] sends carries as StartTime the instant of
    the call less 180 seconds and as EndTime the instant of the call, each
    written in UTC as YYYY-MM-DD HH:MM:SS, whatever the zone of the clock
    and whatever the encoding of the parameters had put under these
    keys. *)
Theorem query_window n env m body :
  In body (queries (trace (scrape pf n env m))) ->
  url.Get body "StartTime" = utcTimestamp (time.instant (now env) - 180 * time.Second)
  /\ url.Get body "EndTime" = utcTimestamp (time.instant (now env)).
Proof.
  rewrite scrape_queries.
  destruct (fetch_queries n env m) as [->|(b & ->)]; [contradiction|].
  intros [<-|[]].
  rewrite Get_Set_other, !Get_Set_same by discriminate.
  rewrite !Format_timestampLayout by reflexivity.
  split; [|reflexivity].
  replace (time.instant (time.Add (time.In_UTC (now env)) (180 * time.Second * -1)))
    with (time.instant (now env) - 180 * time.Second);
    [reflexivity|].
  unfold time.Add, time.In_UTC. cbn [time.instant]. lia.
Qed.

(** C10: what a pass carries about a metric is, in this order, the value
    sample when [scrape] succeeded, the duration sample, the success
    sample; nothing comes between the last two and nothing after them. *)
Theorem samples_in_order id ak sk rg (w : World) schedule m :
  In m metrics ->
  let n := NewNASCollector id ak sk rg in
  exists first x,
    filter (sampleOf m) (Collect pf n w schedule)
    = first ++ [durationSample m (since (w (Name m))); successSample m x]
    /\ ((exists v, first = [valueSample n m v] /\ x = 1%float
                   /\ outcome (scrape pf n (w (Name m)) m) = Ok tt)
        \/ (first = [] /\ x = 0%float
            /\ exists e, outcome (scrape pf n (w (Name m)) m) = Err e)).
Proof.
  intros I n.
  rewrite (@Collect_projection pf n w schedule m metrics_distinct I).
  rewrite collect_sends, scrape_outcome.
  destruct (scrapeValue pf n (w (Name m)) m) as [v|e].
  - exists [valueSample n m v], 1%float. split; [reflexivity|]. left. eauto.
  - exists [], 0%float. split; [reflexivity|]. right. eauto.
Qed.

End Contract.

(** * The contract on concrete inputs *)

Lemma In_FreeStorageSpace : In example.FreeStorageSpace metrics.
Proof. left. reflexivity. Qed.

Lemma In_UsedStorageSpace : In example.UsedStorageSpace metrics.
Proof. right. left. reflexivity. Qed.

Ltac evaluate := vm_compute; try reflexivity; try discriminate.

(** A data point of the examples is well formed when both parsers answer. *)
Ltac well_formed :=
  repeat (constructor; [split; eexists; vm_compute; reflexivity|]); try constructor.

(** The timestamp of a data point of the examples against a given time. *)
Ltac compare_timestamps :=
  repeat (constructor;
          [let t' := fresh "t" in let H := fresh "H" in
           intros t' H; vm_compute in H; injection H as <-; evaluate|]);
  try constructor.

(** Why the zero time is assumed: the loop starts from [new(time.Time)], the
    zero time of year 1, so a data point dated before it is passed over.
    For a response whose only data point is dated within the year before
    year 1 and carries the value 5, the timestamp parses and so does the
    value, and [scrape] succeeds with the value 0 it started with.  No
    answer to a query for the last three minutes is dated so. *)
Theorem latest_before_year_one_is_dropped :
  let n := example.collector in
  let env := example.env example.ancient in
  let m := example.FreeStorageSpace in
  outcome (fetch n env m) = Ok example.ancient
  /\ map timestampOf example.ancient = [Some (time.Date 0 12 31 23 59 59 0 0)]
  /\ map (sumOf example.ParseFloat) example.ancient = [Some 5%float]
  /\ sends (trace (scrape example.ParseFloat n env m)) = [valueSample n m 0%float]
  /\ outcome (scrape example.ParseFloat n env m) = Ok tt.
Proof. vm_compute. repeat split; reflexivity. Qed.

Lemma latest_point_is_reported_witness :
  sends (trace (scrape example.ParseFloat example.collector
                  (example.env example.outOfOrder) example.FreeStorageSpace))
  = [valueSample example.collector example.FreeStorageSpace 30.5%float]
  /\ outcome (scrape example.ParseFloat example.collector
                (example.env example.outOfOrder) example.FreeStorageSpace) = Ok tt.
Proof.
  apply (@latest_point_is_reported example.ParseFloat example.collector
           (example.env example.outOfOrder) example.FreeStorageSpace
           example.outOfOrder (example.datapoint "2021-03-01T00:02:00Z" "30.5")
           (time.Date 2021 3 1 0 2 0 0 0) 30.5%float).
  - vm_compute. reflexivity.
  - well_formed.
  - apply nodupb_sound with (eqb := sameInstant); [exact sameInstant_refl|].
    vm_compute. reflexivity.
  - right. left. reflexivity.
  - vm_compute. reflexivity.
  - vm_compute. reflexivity.
  - evaluate.
  - compare_timestamps.
Defined.

(** C2 as stated fails: with two data points at the latest instant, the
    first of them with value 1 and the second with value 2, [scrape] does not
    send the value of the first. *)
Lemma tie_first_seen_does_not_win :
  ~ (forall pf n env m pre dp post t v,
        outcome (fetch n env m) = Ok (pre ++ dp :: post) ->
        Forall (wellFormed pf) (pre ++ dp :: post) ->
        timestampOf dp = Some t -> sumOf pf dp = Some v ->
        0 <= time.instant t ->
        Forall (earlier t) pre -> Forall (notAfter t) post ->
        Exists (fun d => exists t', timestampOf d = Some t'
                                    /\ time.instant t' = time.instant t) post ->
        sends (trace (scrape pf n env m)) = [valueSample n m v]).
Proof.
  intros H.
  specialize (H example.ParseFloat example.collector (example.env example.tied)
                example.FreeStorageSpace []
                (example.datapoint "2021-03-01T00:00:00Z" "1")
                [example.datapoint "2021-03-01T09:00:00+09:00" "2"]
                (time.Date 2021 3 1 0 0 0 0 0) 1%float).
  assert (E : sends (trace (scrape example.ParseFloat example.collector
                              (example.env example.tied) example.FreeStorageSpace))
              = [valueSample example.collector example.FreeStorageSpace 1%float]).
  { apply H.
    - vm_compute. reflexivity.
    - well_formed.
    - vm_compute. reflexivity.
    - vm_compute. reflexivity.
    - evaluate.
    - constructor.
    - compare_timestamps.
    - constructor. exists (time.Date 2021 3 1 9 0 0 0 32400).
      split; vm_compute; reflexivity. }
  apply (f_equal (fun l => match l with
                           | [s] => PrimFloat.eqb (prometheus.value s) 1
                           | _ => false
                           end)) in E.
  vm_compute in E. discriminate.
Qed.

Lemma tie_last_seen_wins_witness :
  sends (trace (scrape example.ParseFloat example.collector
                  (example.env example.tied) example.FreeStorageSpace))
  = [valueSample example.collector example.FreeStorageSpace 2%float]
  /\ outcome (scrape example.ParseFloat example.collector
                (example.env example.tied) example.FreeStorageSpace) = Ok tt.
Proof.
  apply (@tie_last_seen_wins example.ParseFloat example.collector
           (example.env example.tied) example.FreeStorageSpace
           [example.datapoint "2021-03-01T00:00:00Z" "1"]
           (example.datapoint "2021-03-01T09:00:00+09:00" "2") []
           (time.Date 2021 3 1 9 0 0 0 32400) 2%float).
  - vm_compute. reflexivity.
  - well_formed.
  - vm_compute. reflexivity.
  - vm_compute. reflexivity.
  - evaluate.
  - compare_timestamps.
  - constructor.
Defined.

(** C3 as stated fails: a data point whose value is not a number, standing
    after a later data point, does not fail the fetch. *)
Lemma malformed_value_can_pass :
  ~ (forall pf n env m datapoints,
        outcome (fetch n env m) = Ok datapoints ->
        Exists (fun dp => timestampOf dp = None \/ sumOf pf dp = None) datapoints ->
        exists e, outcome (scrape pf n env m) = Err e /\ kind e = ParseFailure).
Proof.
  intros H.
  destruct (H example.ParseFloat example.collector (example.env example.staleGarbage)
              example.FreeStorageSpace example.staleGarbage) as (e & E & _).
  - vm_compute. reflexivity.
  - apply Exists_cons_tl, Exists_cons_hd. right. vm_compute. reflexivity.
  - vm_compute in E. discriminate.
Qed.

Lemma malformed_point_fails_fetch_witness :
  exists e,
    outcome (scrape example.ParseFloat example.collector
               (example.env example.freshGarbage) example.FreeStorageSpace) = Err e
    /\ kind e = ParseFailure.
Proof.
  apply (@malformed_point_fails_fetch example.ParseFloat example.collector
           (example.env example.freshGarbage) example.FreeStorageSpace
           [example.datapoint "2021-03-01T00:00:00Z" "1"]
           (example.datapoint "2021-03-01T00:00:05Z" "abc") []).
  - vm_compute. reflexivity.
  - right. exists (time.Date 2021 3 1 0 0 5 0 0).
    split; [vm_compute; reflexivity|].
    split; [vm_compute; reflexivity|].
    split; [evaluate|].
    compare_timestamps.
Defined.

Lemma success_flag_tells_outcome_witness :
  exists x,
    filter (fun s => hasDesc scrapeSuccessDesc s && hasName "UsedStorageSpace" s)
      (Collect example.ParseFloat example.collector
         (example.worldWithout "UsedStorageSpace" example.outOfOrder) example.schedule)
    = [successSample example.UsedStorageSpace x]
    /\ x = 0%float.
Proof.
  destruct (@success_flag_tells_outcome example.ParseFloat
              "nas-1" "access" "secret" "jp-east-1"
              (example.worldWithout "UsedStorageSpace" example.outOfOrder)
              example.schedule example.UsedStorageSpace In_UsedStorageSpace)
    as ((x & E & _ & Z0) & _).
  exists x. split; [exact E|].
  apply Z0. eexists. vm_compute. reflexivity.
Defined.

Lemma empty_response_is_no_data_witness :
  (exists e,
      outcome (scrape example.ParseFloat example.collector
                 (example.env []) example.UsedStorageSpace) = Err e
      /\ kind e = NoData)
  /\ filter (sampleOf example.UsedStorageSpace)
       (Collect example.ParseFloat example.collector
          (example.worldWithout "UsedStorageSpace" example.outOfOrder) example.schedule)
     = [durationSample example.UsedStorageSpace 50000000;
        successSample example.UsedStorageSpace 0%float].
Proof.
  destruct (@empty_response_is_no_data example.ParseFloat
              "nas-1" "access" "secret" "jp-east-1"
              (example.worldWithout "UsedStorageSpace" example.outOfOrder)
              example.schedule [] example.UsedStorageSpace In_UsedStorageSpace)
    as (N & S & _).
  - vm_compute. reflexivity.
  - split; [exact N|exact S].
Defined.

Lemma metrics_do_not_interfere_witness :
  filter (sampleOf example.FreeStorageSpace)
    (Collect example.ParseFloat example.collector
       (example.world example.outOfOrder) example.schedule)
  = filter (sampleOf example.FreeStorageSpace)
      (Collect example.ParseFloat example.collector
         (example.worldWithout "UsedStorageSpace" example.outOfOrder) []).
Proof.
  apply (@metrics_do_not_interfere example.ParseFloat
           "nas-1" "access" "secret" "jp-east-1"
           (example.world example.outOfOrder)
           (example.worldWithout "UsedStorageSpace" example.outOfOrder)
           example.schedule [] example.FreeStorageSpace In_FreeStorageSpace).
  - vm_compute. reflexivity.
  - vm_compute. reflexivity.
Defined.

(** C8 as stated fails: two passes over the same answers whose fetches took
    50ms and 10ms do not carry the same samples. *)
Lemma passes_differ_in_durations :
  ~ (forall pf n (w1 w2 : World) s1 s2,
        (forall m, In m (nc_metrics n) ->
           outcome (fetch n (w1 (Name m)) m) = outcome (fetch n (w2 (Name m)) m)) ->
        Permutation (Collect pf n w1 s1) (Collect pf n w2 s2)).
Proof.
  intros H.
  specialize (H example.ParseFloat example.collector
                (example.world example.outOfOrder)
                (example.quickWorld example.outOfOrder)
                example.schedule example.schedule).
  assert (P : Permutation
                (Collect example.ParseFloat example.collector
                   (example.world example.outOfOrder) example.schedule)
                (Collect example.ParseFloat example.collector
                   (example.quickWorld example.outOfOrder) example.schedule)).
  { apply H. intros m _. reflexivity. }
  apply (Permutation_filter
           (fun s => hasDesc scrapeDurationDesc s && hasName "FreeStorageSpace" s)) in P.
  apply (Permutation_map prometheus.value) in P.
  vm_compute in P.
  apply Permutation_length_1 in P.
  apply (f_equal (fun x => PrimFloat.eqb x (time.Seconds 50000000))) in P.
  vm_compute in P. discriminate.
Qed.

Lemma passes_agree_up_to_durations_witness :
  Permutation
    (map forgetDuration
       (Collect example.ParseFloat example.collector
          (example.world example.outOfOrder) example.schedule))
    (map forgetDuration
       (Collect example.ParseFloat example.collector
          (example.quickWorld example.outOfOrder) [])).
Proof.
  apply (@passes_agree_up_to_durations example.ParseFloat
           "nas-1" "access" "secret" "jp-east-1"
           (example.world example.outOfOrder)
           (example.quickWorld example.outOfOrder) example.schedule []).
  intros m _. reflexivity.
Defined.

Lemma query_window_witness :
  let sent := queries (trace (scrape example.ParseFloat example.collector
                                (example.env example.outOfOrder)
                                example.FreeStorageSpace)) in
  List.length sent = 1%nat
  /\ url.Get (hd [] sent) "StartTime" = "2021-02-28 23:58:00"
  /\ url.Get (hd [] sent) "EndTime" = "2021-03-01 00:01:00".
Proof.
  intros sent. split; [vm_compute; reflexivity|].
  destruct (@query_window example.ParseFloat example.collector
              (example.env example.outOfOrder) example.FreeStorageSpace (hd [] sent))
    as [S E].
  - left. vm_compute. reflexivity.
  - rewrite S, E. vm_compute. split; reflexivity.
Defined.

Lemma samples_in_order_witness :
  exists first x,
    filter (sampleOf example.FreeStorageSpace)
      (Collect example.ParseFloat example.collector
         (example.world example.outOfOrder) example.schedule)
    = first ++ [durationSample example.FreeStorageSpace 50000000;
                successSample example.FreeStorageSpace x].
Proof.
  destruct (@samples_in_order example.ParseFloat
              "nas-1" "access" "secret" "jp-east-1"
              (example.world example.outOfOrder) example.schedule
              example.FreeStorageSpace In_FreeStorageSpace)
    as (first & x & E & _).
  exists first, x. exact E.
Defined.

(** * Further properties of the collector *)

Section Further.
Variable pf : string -> nat -> option float.

(** ** The loop, read backwards *)

(** When the loop ends with a value, either it passed every point over and
    the value is the one it started with, or the value is that of a point
    whose timestamp is the latest, none before it being later and all
    after it being earlier. *)
Lemma scan_ok datapoints : forall latest latestVal v,
  scan pf latest latestVal datapoints = Ok v ->
  (v = latestVal /\ Forall (earlier latest) datapoints)
  \/ exists pre dp post t,
       datapoints = pre ++ dp :: post
       /\ timestampOf dp = Some t /\ sumOf pf dp = Some v
       /\ time.instant latest <= time.instant t
       /\ Forall (notAfter t) pre /\ Forall (earlier t) post.
Proof.
  induction datapoints as [|d rest IH]; intros latest latestVal v H.
  - left. split; [now inversion H|constructor].
  - rewrite scan_cons in H.
    destruct (timestampOf d) as [t0|] eqn:T0; [|discriminate].
    destruct (time.Before t0 latest) eqn:B.
    + apply Before_lt in B.
      destruct (IH _ _ _ H) as [[-> E]|(pre & dp & post & t & -> & T & S & L & N & E)].
      * left. split; [reflexivity|]. constructor; [|exact E].
        intros t' T'. rewrite T0 in T'. inversion T'; subst. exact B.
      * right. exists (d :: pre), dp, post, t. repeat split; auto.
        constructor; [|exact N].
        intros t' T'. rewrite T0 in T'. inversion T'; subst. lia.
    + apply Before_ge in B.
      destruct (sumOf pf d) as [v0|] eqn:S0; [|discriminate].
      destruct (IH _ _ _ H) as [[-> E]|(pre & dp & post & t & -> & T & S & L & N & E)].
      * right. exists [], d, rest, t0. repeat split; auto.
      * right. exists (d :: pre), dp, post, t. repeat split; auto; [lia|].
        constructor; [|exact N].
        intros t' T'. rewrite T0 in T'. inversion T'; subst. exact L.
Qed.

(** When the loop fails, the error quotes the raw timestamp of a point
    whose timestamp does not parse, or the raw sum of a point whose sum
    does not. *)
Lemma scan_err datapoints : forall latest latestVal e,
  scan pf latest latestVal datapoints = Err e ->
  exists dp, In dp datapoints
    /\ ((timestampOf dp = None
         /\ e = ErrTimestamp (nifcloud.StringValue (nas.Timestamp dp)))
        \/ (sumOf pf dp = None
            /\ e = ErrSum (nifcloud.StringValue (nas.Sum dp)))).
Proof.
  induction datapoints as [|d rest IH]; intros latest latestVal e H.
  - discriminate.
  - rewrite scan_cons in H.
    destruct (timestampOf d) as [t0|] eqn:T0.
    + destruct (time.Before t0 latest).
      * destruct (IH _ _ _ H) as (dp & I & C). exists dp. split; [now right|exact C].
      * destruct (sumOf pf d) as [v0|] eqn:S0.
        -- destruct (IH _ _ _ H) as (dp & I & C). exists dp. split; [now right|exact C].
        -- inversion H; subst. exists d. split; [now left|]. right. now split.
    + inversion H; subst. exists d. split; [now left|]. left. now split.
Qed.

Lemma scrapeValue_ok n env m v :
  scrapeValue pf n env m = Ok v ->
  exists datapoints,
    outcome (fetch n env m) = Ok datapoints /\ datapoints <> []
    /\ latestValue pf datapoints = Ok v.
Proof.
  unfold scrapeValue.
  destruct (outcome (fetch n env m)) as [datapoints|e]; [|discriminate].
  destruct datapoints as [|d rest]; [discriminate|].
  cbn [List.length Nat.eqb].
  intros L. exists (d :: rest). split; [reflexivity|]. split; [discriminate|]. exact L.
Qed.

(** X1: what a successful [scrape] sends.  Whenever [scrape] sends a value
    [v], the response was not empty, and either every data point is before
    the zero time and [v] is 0, or [v] is the parsed sum of a data point
    whose timestamp is not before the zero time, with no later point before
    it and only earlier points after it.  The value is never a combination
    of several points. *)
Theorem sent_value_is_the_latest_sum n env m v :
  sends (trace (scrape pf n env m)) = [valueSample n m v] ->
  exists datapoints,
    outcome (fetch n env m) = Ok datapoints /\ datapoints <> []
    /\ ((v = 0%float /\ Forall (earlier time.zero) datapoints)
        \/ exists pre dp post t,
             datapoints = pre ++ dp :: post
             /\ timestampOf dp = Some t /\ sumOf pf dp = Some v
             /\ 0 <= time.instant t
             /\ Forall (notAfter t) pre /\ Forall (earlier t) post).
Proof.
  intros S. rewrite scrape_sends in S.
  destruct (scrapeValue pf n env m) as [v'|e] eqn:V; [|discriminate].
  apply (f_equal (fun l => match l with
                           | [s] => prometheus.value s
                           | _ => 0%float
                           end)) in S.
  change (v' = v) in S. subst v'.
  destruct (scrapeValue_ok _ _ _ V) as (datapoints & F & N & L).
  exists datapoints. split; [exact F|]. split; [exact N|].
  apply scan_ok in L. exact L.
Qed.

(** X2: a parse failure names its culprit.  When the response was received
    and [scrape] fails, the error carries the raw timestamp of a data point
    of the response whose timestamp does not parse, or the raw sum of one
    whose sum does not parse. *)
Theorem parse_failure_names_a_point n env m datapoints e :
  outcome (fetch n env m) = Ok datapoints -> datapoints <> [] ->
  outcome (scrape pf n env m) = Err e ->
  exists dp, In dp datapoints
    /\ ((timestampOf dp = None
         /\ e = ErrTimestamp (nifcloud.StringValue (nas.Timestamp dp)))
        \/ (sumOf pf dp = None
            /\ e = ErrSum (nifcloud.StringValue (nas.Sum dp)))).
Proof.
  intros F N. rewrite scrape_outcome.
  erewrite scrapeValue_response; [|exact F|exact N].
  destruct (latestValue pf datapoints) as [v|e'] eqn:L; [discriminate|].
  intros E. assert (e' = e) as -> by (now inversion E).
  eapply scan_err. exact L.
Qed.


(** The loop ends with a value when every point is well formed. *)
Lemma scan_total datapoints : forall latest latestVal,
  Forall (wellFormed pf) datapoints ->
  exists v, scan pf latest latestVal datapoints = Ok v.
Proof.
  induction datapoints as [|d rest IH]; intros latest latestVal W.
  - now exists latestVal.
  - inversion W as [|? ? [[t T] [v V]] W']; subst.
    rewrite scan_cons, T, V.
    destruct (time.Before t latest); now apply IH.
Qed.

(** The value of the loop is 0 with every point before the zero time, or
    that of a point at the greatest instant of the response. *)
Lemma latestValue_greatest datapoints v :
  latestValue pf datapoints = Ok v ->
  (v = 0%float /\ Forall (earlier time.zero) datapoints)
  \/ exists dp t,
       In dp datapoints /\ timestampOf dp = Some t /\ sumOf pf dp = Some v
       /\ 0 <= time.instant t /\ Forall (notAfter t) datapoints.
Proof.
  intros L. apply scan_ok in L.
  destruct L as [L|(pre & dp & post & t & -> & T & S & Z0 & N & E)]; [now left|].
  right. exists dp, t. split; [apply in_elt|]. repeat split; try assumption.
  apply Forall_app. split; [exact N|]. constructor.
  - intros t' T'. rewrite T in T'. inversion T'. lia.
  - eapply Forall_impl; [|exact E]. intros d Ed t' T'. specialize (Ed t' T'). lia.
Qed.

(** The order of the data points does not change the value of the loop
    when they are well formed and no two of them are at the same
    instant. *)
Lemma latestValue_Permutation datapoints datapoints' :
  Permutation datapoints datapoints' ->
  Forall (wellFormed pf) datapoints ->
  NoDup (map instantOf datapoints) ->
  latestValue pf datapoints = latestValue pf datapoints'.
Proof.
  intros P W D.
  assert (W' : Forall (wellFormed pf) datapoints').
  { apply Forall_forall. intros d I. rewrite Forall_forall in W. apply W.
    eapply Permutation_in; [apply Permutation_sym|]; eassumption. }
  destruct (scan_total time.zero 0%float W) as [v L].
  destruct (scan_total time.zero 0%float W') as [v' L'].
  fold (latestValue pf datapoints) in L. fold (latestValue pf datapoints') in L'.
  rewrite L, L'. f_equal.
  destruct (latestValue_greatest _ L) as [[-> E]|(dp & t & I & T & S & Z0 & N)];
    destruct (latestValue_greatest _ L') as [[-> E']|(dp' & t' & I' & T' & S' & Z0' & N')].
  - reflexivity.
  - exfalso. apply (Permutation_in _ (Permutation_sym P)) in I'.
    rewrite Forall_forall in E. specialize (E dp' I' t' T').
    change (time.instant time.zero) with 0 in E. lia.
  - exfalso. apply (Permutation_in _ P) in I.
    rewrite Forall_forall in E'. specialize (E' dp I t T).
    change (time.instant time.zero) with 0 in E'. lia.
  - assert (I2 : In dp' datapoints)
      by (eapply Permutation_in; [apply Permutation_sym|]; eassumption).
    assert (I1 : In dp datapoints') by (eapply Permutation_in; eassumption).
    rewrite Forall_forall in N, N'.
    pose proof (N dp' I2 t' T') as A. pose proof (N' dp I1 t T) as B.
    assert (Q : dp = dp').
    { eapply In_map_inj with (f := instantOf); [exact D|exact I|exact I2|].
      rewrite (instantOf_timestampOf _ T), (instantOf_timestampOf _ T').
      f_equal. lia. }
    subst dp'. rewrite S in S'. now inversion S'.
Qed.

(** X4: the order of the response does not matter when no two data points
    are at the same instant.  Two fetches whose responses hold the same
    well-formed data points in different orders, no two of them at the same
    instant (whatever the zone they are written in), make [scrape] send the
    same value and end alike. *)
Theorem response_order_is_irrelevant n env env' m datapoints datapoints' :
  outcome (fetch n env m) = Ok datapoints ->
  outcome (fetch n env' m) = Ok datapoints' ->
  Permutation datapoints datapoints' ->
  Forall (wellFormed pf) datapoints ->
  NoDup (map instantOf datapoints) ->
  sends (trace (scrape pf n env m)) = sends (trace (scrape pf n env' m))
  /\ outcome (scrape pf n env m) = outcome (scrape pf n env' m).
Proof.
  intros F F' P W D.
  assert (V : scrapeValue pf n env m = scrapeValue pf n env' m).
  { unfold scrapeValue. rewrite F, F', (Permutation_length P).
    destruct (List.length datapoints' =? 0)%nat; [reflexivity|].
    now apply latestValue_Permutation. }
  now rewrite !scrape_sends, !scrape_outcome, V.
Qed.

(** ** Requests and log lines *)

Lemma collect_queries n env m :
  queries (collect pf n env m) = queries (trace (fetch n env m)).
Proof.
  pose proof (scrape_queries pf n env m) as S. unfold collect.
  destruct (scrape pf n env m) as [tr r]. unfold trace in S. cbn [fst] in S.
  destruct r; rewrite !queries_app, S; cbn [queries]; now rewrite app_nil_r.
Qed.

(** [fetch] either fails before anything is sent, for want of a request,
    or sends one request and ends with the response or a transport
    error. *)
Lemma fetch_shape n env m :
  (queries (trace (fetch n env m)) = []
   /\ exists e, outcome (fetch n env m) = Err e /\ kind e = RequestBuild)
  \/ (exists body, queries (trace (fetch n env m)) = [body]
      /\ forall e, outcome (fetch n env m) = Err e -> kind e = Transport).
Proof.
  unfold fetch.
  destruct (requestBuild _ _) as [cause|].
  { left. split; [reflexivity|]. eexists. split; reflexivity. }
  destruct (queryutilParse _ _ _) as [body|cause].
  2:{ left. split; [reflexivity|]. eexists. split; reflexivity. }
  right. eexists.
  destruct (requestSend _ _) as [datapoints|cause];
    (split; [reflexivity|]); intros e E; inversion E; reflexivity.
Qed.

(** An error of [scrape] is that of [fetch], or says that the response was
    empty, or that a point did not parse. *)
Lemma scrapeValue_err n env m e :
  scrapeValue pf n env m = Err e ->
  outcome (fetch n env m) = Err e \/ kind e = NoData \/ kind e = ParseFailure.
Proof.
  unfold scrapeValue.
  destruct (outcome (fetch n env m)) as [datapoints|e'].
  - destruct (List.length datapoints =? 0)%nat.
    + intros E. right. left. inversion E. reflexivity.
    + intros L. right. right. apply scan_error in L. exact L.
  - intros E. left. inversion E. reflexivity.
Qed.

(** X5: [Send] is called at most once.  A [Query] event is one call of
    [request.Send], with the body given to [SetBufferBody].  The goroutine
    of a metric calls [Send] at most once in a pass, the code having no
    loop around it, and does not call it at all exactly when [scrape]
    returns the error of [Build] or of the encoding.  What the SDK does
    inside [Send] is not the program's and is not spoken of. *)
Theorem send_is_called_at_most_once n env m :
  (List.length (queries (collect pf n env m)) <= 1)%nat
  /\ (queries (collect pf n env m) = []
      <-> exists e, outcome (scrape pf n env m) = Err e /\ kind e = RequestBuild).
Proof.
  rewrite collect_queries, scrape_outcome.
  destruct (fetch_shape n env m) as [(Q & e & F & K)|(body & Q & K)]; rewrite Q.
  - split; [cbn [List.length]; lia|]. split; [|reflexivity].
    intros _. exists e. split; [|exact K].
    unfold scrapeValue. rewrite F. reflexivity.
  - split; [cbn [List.length]; lia|]. split; [discriminate|].
    intros (e & E & Ke).
    destruct (scrapeValue pf n env m) as [v|e'] eqn:V; [discriminate|].
    assert (e' = e) as -> by (now inversion E).
    destruct (scrapeValue_err _ _ _ V) as [F|[N|P]].
    + rewrite (K e F) in Ke. discriminate.
    + rewrite N in Ke. discriminate.
    + rewrite P in Ke. discriminate.
Qed.

(** X7: what the request is made of.  A request reaches the wire only
    when [Build] accepted the input naming the instance under the
    dimension NASInstanceIdentifier and the metric by its name; what is
    sent is what [queryutil.Parse] made of that input and of the Action
    and Version of the operation, with nothing but StartTime and EndTime
    touched afterwards. *)
Theorem request_parameters n env m sent :
  In sent (queries (collect pf n env m)) ->
  let input :=
    nas.mkInput
      [nas.mkDimension (nifcloud.String "NASInstanceIdentifier")
                       (nifcloud.String (nasInstanceIdentifier n))]
      (nifcloud.String (Name m)) in
  requestBuild (service env) input = None
  /\ exists encoded,
       queryutilParse (service env)
         [("Action", [operationName (service env)]);
          ("Version", [apiVersion (service env)])] input = Ok encoded
       /\ forall key, key <> "StartTime" -> key <> "EndTime" ->
                      url.Get sent key = url.Get encoded key.
Proof.
  intros I input. rewrite collect_queries in I. unfold fetch in I. fold input in I.
  destruct (requestBuild (service env) input) as [cause|]; [contradiction|].
  split; [reflexivity|].
  destruct (queryutilParse (service env) _ input) as [encoded|cause]; [|contradiction].
  exists encoded. split; [reflexivity|]. intros key NS NE.
  assert (E : sent = url.Set_ (url.Set_ encoded "StartTime"
                (time.Format (time.Add (time.In_UTC (now env)) (180 * time.Second * -1))
                             timestampLayout))
                "EndTime" (time.Format (time.In_UTC (now env)) timestampLayout)).
  { destruct (requestSend (service env) _); destruct I as [I|[]]; now rewrite <- I. }
  rewrite E, !Get_Set_other by congruence. reflexivity.
Qed.

(** X6: a failure is logged once, a success is not.  The log lines of a
    goroutine are the single line with the metric name, the measured
    duration and the error of [scrape] when [scrape] fails, and none when
    it succeeds. *)
Theorem failure_is_logged_once n env m :
  logs (collect pf n env m) =
  match outcome (scrape pf n env m) with
  | Err e => [(Name m, since env, e)]
  | Ok _ => []
  end.
Proof.
  assert (A : forall tr tr', logs (tr ++ tr') = logs tr ++ logs tr').
  { induction tr as [|[b|s|? ? ?] tr IH]; intros tr'; cbn [app logs];
      [reflexivity| | |f_equal]; apply IH. }
  assert (F : logs (trace (fetch n env m)) = []).
  { unfold fetch.
    destruct (requestBuild _ _); [reflexivity|].
    destruct (queryutilParse _ _ _); [|reflexivity].
    destruct (requestSend _ _); reflexivity. }
  assert (S : logs (trace (scrape pf n env m)) = []).
  { rewrite scrape_unfold. destruct (scrapeValue pf n env m) as [v|e]; [|exact F].
    change (logs (trace (fetch n env m) ++ [Send (valueSample n m v)]) = []).
    now rewrite A, F. }
  unfold collect.
  destruct (scrape pf n env m) as [tr r]. unfold trace, outcome in *. cbn [fst snd] in *.
  destruct r; rewrite !A, S; reflexivity.
Qed.

(** ** The pass as a whole *)

(** X8: the contents of a pass.  Whatever the schedule, a pass carries,
    up to order, the samples of every goroutine and nothing else: for each
    metric of the collector its duration sample and its success sample,
    and before them its value sample when [scrape] ended with a value.  No
    sample is lost and none is sent twice; so a pass has two samples for
    every metric and one more for every metric whose [scrape] succeeded. *)
Theorem pass_contents n (w : World) schedule :
  Permutation (Collect pf n w schedule)
    (List.concat
       (map (fun m =>
               match scrapeValue pf n (w (Name m)) m with
               | Ok v => [valueSample n m v;
                          durationSample m (since (w (Name m)));
                          successSample m 1%float]
               | Err _ => [durationSample m (since (w (Name m)));
                           successSample m 0%float]
               end) (nc_metrics n)))
  /\ List.length (Collect pf n w schedule)
     = (2 * List.length (nc_metrics n)
        + List.length (filter (fun m => is_ok (scrapeValue pf n (w (Name m)) m))
                              (nc_metrics n)))%nat.
Proof.
  split.
  - eapply Permutation_trans; [apply Collect_Permutation|].
    erewrite map_ext; [apply Permutation_refl|].
    intros m. apply collect_sends.
  - rewrite (Permutation_length (Collect_Permutation pf n w schedule)).
    induction (nc_metrics n) as [|m ms IH]; [reflexivity|].
    cbn [map List.concat filter]. rewrite length_app, IH, collect_sends.
    destruct (scrapeValue pf n (w (Name m)) m); cbn [is_ok List.length]; lia.
Qed.

(** X9: a pass sends what [Describe] announced.  The descriptor of every
    sample of a pass is one of the descriptors [Describe] sends, for any
    collector, world and schedule. *)
Theorem samples_are_described n (w : World) schedule s :
  In s (Collect pf n w schedule) -> In (prometheus.desc s) (Describe n).
Proof.
  intros I.
  apply (Permutation_in _ (Collect_Permutation pf n w schedule)) in I.
  apply in_concat in I as (q & Q & I).
  apply in_map_iff in Q as (m & <- & M).
  unfold Describe. apply in_or_app.
  rewrite collect_sends in I.
  destruct (scrapeValue pf n (w (Name m)) m); cbn [In] in I.
  - destruct I as [<-|[<-|[<-|[]]]].
    + left. change (In (Desc m) (map Desc (nc_metrics n))). now apply in_map.
    + right. now left.
    + right. right. now left.
  - destruct I as [<-|[<-|[]]].
    + right. now left.
    + right. right. now left.
Qed.

(** X10: no sample of a pass of a collector made by [NewNASCollector] makes
    [MustNewConstMetric] panic over its labels: every sample has as many
    label values as its descriptor has variable labels, and every sample is
    a gauge. *)
Theorem samples_fit_their_descriptors id ak sk rg (w : World) schedule s :
  In s (Collect pf (NewNASCollector id ak sk rg) w schedule) ->
  prometheus.validateLabelValues (prometheus.desc s) (prometheus.labelValues s) = true
  /\ prometheus.valType s = prometheus.GaugeValue.
Proof.
  intros I.
  apply (Permutation_in _ (Collect_Permutation pf _ w schedule)) in I.
  apply in_concat in I as (q & Q & I).
  apply in_map_iff in Q as (m & <- & M).
  cbn [nc_metrics NewNASCollector] in M.
  assert (L : List.length (prometheus.variableLabels (Desc m)) = 2%nat).
  { assert (A : forallb (fun m => (List.length (prometheus.variableLabels (Desc m)) =? 2)%nat)
                        metrics = true) by (vm_compute; reflexivity).
    rewrite forallb_forall in A. apply Nat.eqb_eq. now apply A. }
  rewrite collect_sends in I.
  unfold prometheus.validateLabelValues.
  destruct (scrapeValue pf _ (w (Name m)) m); cbn [In] in I.
  - destruct I as [<-|[<-|[<-|[]]]]; split; try reflexivity.
    cbn [valueSample prometheus.MustNewConstMetric prometheus.desc prometheus.labelValues].
    rewrite L. reflexivity.
  - destruct I as [<-|[<-|[]]]; split; reflexivity.
Qed.

(** X11: [Describe] announces thirteen descriptors, no two of them the
    same, whatever the collector was made with: the eleven of the metrics
    and the two of the scrape itself. *)
Theorem descriptors_are_distinct id ak sk rg :
  NoDup (Describe (NewNASCollector id ak sk rg))
  /\ List.length (Describe (NewNASCollector id ak sk rg)) = 13%nat.
Proof.
  split; [|reflexivity].
  apply nodupb_sound with (eqb := prometheus.Desc_eqb); [apply Desc_eqb_refl|].
  vm_compute. reflexivity.
Qed.

(** X12: the orders of a pass.  What the channel carries when [wg.Wait()]
    returns is, for some schedule, any sequence that takes every sample of
    every goroutine once and keeps those of one goroutine in program
    order, and nothing else. *)
Theorem pass_orders n (w : World) out :
  goroutines.interleaving
    (map (fun m => sends (collect pf n (w (Name m)) m)) (nc_metrics n)) out
  <-> exists schedule, Collect pf n w schedule = out.
Proof.
  split.
  - apply interleaving_run.
  - intros (schedule & <-). apply run_interleaving.
Qed.

End Further.

(** * The further properties on concrete inputs *)

Lemma sent_value_is_the_latest_sum_witness :
  exists datapoints,
    outcome (fetch example.collector (example.env example.outOfOrder)
                   example.FreeStorageSpace) = Ok datapoints
    /\ datapoints <> []
    /\ ((30.5%float = 0%float /\ Forall (earlier time.zero) datapoints)
        \/ exists pre dp post t,
             datapoints = pre ++ dp :: post
             /\ timestampOf dp = Some t /\ sumOf example.ParseFloat dp = Some 30.5%float
             /\ 0 <= time.instant t
             /\ Forall (notAfter t) pre /\ Forall (earlier t) post).
Proof.
  apply (@sent_value_is_the_latest_sum example.ParseFloat example.collector
           (example.env example.outOfOrder) example.FreeStorageSpace 30.5%float).
  vm_compute. reflexivity.
Defined.

Lemma parse_failure_names_a_point_witness :
  exists dp, In dp example.freshGarbage
    /\ ((timestampOf dp = None
         /\ ErrSum "abc" = ErrTimestamp (nifcloud.StringValue (nas.Timestamp dp)))
        \/ (sumOf example.ParseFloat dp = None
            /\ ErrSum "abc" = ErrSum (nifcloud.StringValue (nas.Sum dp)))).
Proof.
  apply (@parse_failure_names_a_point example.ParseFloat example.collector
           (example.env example.freshGarbage) example.FreeStorageSpace
           example.freshGarbage (ErrSum "abc")).
  - vm_compute. reflexivity.
  - discriminate.
  - vm_compute. reflexivity.
Defined.


Lemma response_order_is_irrelevant_witness :
  sends (trace (scrape example.ParseFloat example.collector
                  (example.env example.outOfOrder) example.FreeStorageSpace))
  = sends (trace (scrape example.ParseFloat example.collector
                    (example.env (rev example.outOfOrder)) example.FreeStorageSpace))
  /\ outcome (scrape example.ParseFloat example.collector
                (example.env example.outOfOrder) example.FreeStorageSpace)
     = outcome (scrape example.ParseFloat example.collector
                  (example.env (rev example.outOfOrder)) example.FreeStorageSpace).
Proof.
  apply (@response_order_is_irrelevant example.ParseFloat example.collector
           (example.env example.outOfOrder) (example.env (rev example.outOfOrder))
           example.FreeStorageSpace example.outOfOrder (rev example.outOfOrder)).
  - vm_compute. reflexivity.
  - vm_compute. reflexivity.
  - apply Permutation_rev.
  - well_formed.
  - apply nodupb_sound with (eqb := sameInstant); [exact sameInstant_refl|].
    vm_compute. reflexivity.
Defined.

Lemma request_parameters_witness :
  let env := example.env example.outOfOrder in
  let sent :=
    hd [] (queries (collect example.ParseFloat example.collector env
                      example.FreeStorageSpace)) in
  let input :=
    nas.mkInput
      [nas.mkDimension (nifcloud.String "NASInstanceIdentifier")
                       (nifcloud.String (nasInstanceIdentifier example.collector))]
      (nifcloud.String (Name example.FreeStorageSpace)) in
  requestBuild (service env) input = None
  /\ exists encoded,
       queryutilParse (service env)
         [("Action", [operationName (service env)]);
          ("Version", [apiVersion (service env)])] input = Ok encoded
       /\ forall key, key <> "StartTime" -> key <> "EndTime" ->
                      url.Get sent key = url.Get encoded key.
Proof.
  intros env sent.
  apply (@request_parameters example.ParseFloat example.collector env
           example.FreeStorageSpace sent).
  vm_compute. left. reflexivity.
Defined.

Lemma samples_are_described_witness :
  let out := Collect example.ParseFloat example.collector
               (example.world example.outOfOrder) example.schedule in
  In (prometheus.desc (hd (durationSample example.FreeStorageSpace 0) out))
     (Describe example.collector).
Proof.
  intros out.
  apply (@samples_are_described example.ParseFloat example.collector
           (example.world example.outOfOrder) example.schedule).
  vm_compute. left. reflexivity.
Defined.

Lemma samples_fit_their_descriptors_witness :
  let out := Collect example.ParseFloat example.collector
               (example.world example.outOfOrder) example.schedule in
  let s := hd (durationSample example.FreeStorageSpace 0) out in
  prometheus.validateLabelValues (prometheus.desc s) (prometheus.labelValues s) = true
  /\ prometheus.valType s = prometheus.GaugeValue.
Proof.
  intros out s.
  apply (@samples_fit_their_descriptors example.ParseFloat
           "nas-1" "access" "secret" "jp-east-1"
           (example.world example.outOfOrder) example.schedule s).
  vm_compute. left. reflexivity.
Defined.
